(** * color-readelf: the ELF64 decoding core of [main.go]

    A shallow embedding of the decoding functions of [main.go]
    ([ReadELFHeader], [JSONOutputProgramHeaders], [dumpStringTable],
    [getString], [MakeSectionHeaderWithName]) together with the parts of the
    Go runtime and of [encoding/binary], [io] and [os] they rely on.

    Conventions.
    - The platform is 64-bit Linux: [int] has 64 bits and a slice may hold
      up to 2^48 bytes.
    - Go's fixed-width unsigned integers are [Z] values; conversions that can
      wrap ([uint32(len(data))], [int64(offset)]) are written out.
    - A [[]byte] is a [list byte]; its capacity equals its length, which is
      what [make([]byte, size)] produces (the only slices the program builds).
    - A Go [string] is a [string]; [string(bytes)] is [string_of_list_byte].
    - An [*os.File] on a regular file is a [File]: the bytes of the file, the
      current offset and a log of the requests made to it.
    - A run-time panic is an [outcome] of its own, distinct from the [error]
      values that [binary.Read] and [Seek] return and that most callers in
      [main.go] discard.
    - Rendering ([ColorPrint], [json.MarshalIndent], [fmt]) is not modelled:
      a function that prints a decoded value returns that value instead. *)

From Stdlib Require Import ZArith List Lia Bool String.
From Stdlib Require Import Strings.Byte.
Import ListNotations.
Local Open Scope Z_scope.

(** ** Integers and bytes *)

(** [uint32(x)] for a non-negative [int] x: truncation to 32 bits. *)
Definition uint32 (z : Z) : Z := z mod 2 ^ 32.

(** [int64(x)] for a [uint64] x: reinterpretation as two's complement. *)
Definition int64 (z : Z) : Z := if z <? 2 ^ 63 then z else z - 2 ^ 64.

(** The numeric value of a byte. *)
Definition byteZ (b : byte) : Z := Z.of_N (Byte.to_N b).

(** The byte holding the low eight bits of an integer. *)
Definition byte_of_Z (z : Z) : byte :=
  match Byte.of_N (Z.to_N (z mod 256)) with
  | Some b => b
  | None => x00
  end.

(** [binary.LittleEndian.UintN(bs)]: least significant byte first. *)
Fixpoint littleEndian (bs : list byte) : Z :=
  match bs with
  | [] => 0
  | b :: rest => byteZ b + 256 * littleEndian rest
  end.

(** ** The records of [main.go] *)

Record Elf64Ehdr := mkEhdr {
  Ehdr_Ident     : list byte;   (* [16]byte *)
  Ehdr_Type      : Z;           (* uint16 *)
  Ehdr_Machine   : Z;           (* uint16 *)
  Ehdr_Version   : Z;           (* uint32 *)
  Ehdr_Entry     : Z;           (* uint64 *)
  Ehdr_Phoff     : Z;           (* uint64 *)
  Ehdr_Shoff     : Z;           (* uint64 *)
  Ehdr_Flags     : Z;           (* uint32 *)
  Ehdr_Ehsize    : Z;           (* uint16 *)
  Ehdr_Phentsize : Z;           (* uint16 *)
  Ehdr_Phnum     : Z;           (* uint16 *)
  Ehdr_Shentsize : Z;           (* uint16 *)
  Ehdr_Shnum     : Z;           (* uint16 *)
  Ehdr_Shstrndx  : Z            (* uint16 *)
}.

Record Elf64Phdr := mkPhdr {
  Phdr_Type   : Z;              (* uint32 *)
  Phdr_Flags  : Z;              (* uint32 *)
  Phdr_Offset : Z;              (* uint64 *)
  Phdr_Vaddr  : Z;              (* uint64 *)
  Phdr_Paddr  : Z;              (* uint64 *)
  Phdr_Filesz : Z;              (* uint64 *)
  Phdr_Memsz  : Z;              (* uint64 *)
  Phdr_Align  : Z               (* uint64 *)
}.

Record Elf64Shdr := mkShdr {
  Shdr_Name      : Z;           (* uint32 *)
  Shdr_Type      : Z;           (* uint32 *)
  Shdr_Flags     : Z;           (* uint64 *)
  Shdr_Addr      : Z;           (* uint64 *)
  Shdr_Offset    : Z;           (* uint64 *)
  Shdr_Size      : Z;           (* uint64 *)
  Shdr_Link      : Z;           (* uint32 *)
  Shdr_Info      : Z;           (* uint32 *)
  Shdr_Addralign : Z;           (* uint64 *)
  Shdr_Entsize   : Z            (* uint64 *)
}.

Record Elf64ShdrWithName := mkShdrWithName {
  Shwn_Name      : string;
  Shwn_Type      : Z;
  Shwn_Flags     : Z;
  Shwn_Addr      : Z;
  Shwn_Offset    : Z;
  Shwn_Size      : Z;
  Shwn_Link      : Z;
  Shwn_Info      : Z;
  Shwn_Addralign : Z;
  Shwn_Entsize   : Z
}.

(** Go's zero values, as [new], [var] and [make] produce them. *)
Definition zeroEhdr : Elf64Ehdr :=
  mkEhdr (repeat x00 16) 0 0 0 0 0 0 0 0 0 0 0 0 0.
Definition zeroPhdr : Elf64Phdr := mkPhdr 0 0 0 0 0 0 0 0.
Definition zeroShdr : Elf64Shdr := mkShdr 0 0 0 0 0 0 0 0 0 0.
Definition zeroShdrWithName : Elf64ShdrWithName :=
  mkShdrWithName EmptyString 0 0 0 0 0 0 0 0 0.

(** ** The cursor of [encoding/binary]

    [binary.Read] fills a struct field by field from a buffer, advancing an
    offset; a [decoder] is that cursor. *)

Definition decoder (A : Type) : Type := list byte -> A * list byte.

Definition dret {A} (a : A) : decoder A := fun buf => (a, buf).

Definition dbind {A B} (d : decoder A) (k : A -> decoder B) : decoder B :=
  fun buf => let (a, rest) := d buf in k a rest.

Declare Scope decoder_scope.
Delimit Scope decoder_scope with dec.
Notation "x <- d ;; k" := (dbind d (fun x => k))
  (at level 61, d at next level, right associativity) : decoder_scope.

(** An unsigned little-endian integer of [n] bytes. *)
Definition d_uint (n : nat) : decoder Z :=
  fun buf => (littleEndian (firstn n buf), skipn n buf).

(** An array of [n] bytes. *)
Definition d_array (n : nat) : decoder (list byte) :=
  fun buf => (firstn n buf, skipn n buf).

Definition decodeEhdr : decoder Elf64Ehdr :=
  (ident <- d_array 16 ;;
   type <- d_uint 2 ;;
   machine <- d_uint 2 ;;
   version <- d_uint 4 ;;
   entry <- d_uint 8 ;;
   phoff <- d_uint 8 ;;
   shoff <- d_uint 8 ;;
   flags <- d_uint 4 ;;
   ehsize <- d_uint 2 ;;
   phentsize <- d_uint 2 ;;
   phnum <- d_uint 2 ;;
   shentsize <- d_uint 2 ;;
   shnum <- d_uint 2 ;;
   shstrndx <- d_uint 2 ;;
   dret (mkEhdr ident type machine version entry phoff shoff flags ehsize
                phentsize phnum shentsize shnum shstrndx))%dec.

Definition decodePhdr : decoder Elf64Phdr :=
  (type <- d_uint 4 ;;
   flags <- d_uint 4 ;;
   offset <- d_uint 8 ;;
   vaddr <- d_uint 8 ;;
   paddr <- d_uint 8 ;;
   filesz <- d_uint 8 ;;
   memsz <- d_uint 8 ;;
   align <- d_uint 8 ;;
   dret (mkPhdr type flags offset vaddr paddr filesz memsz align))%dec.

Definition decodeShdr : decoder Elf64Shdr :=
  (name <- d_uint 4 ;;
   type <- d_uint 4 ;;
   flags <- d_uint 8 ;;
   addr <- d_uint 8 ;;
   offset <- d_uint 8 ;;
   size <- d_uint 8 ;;
   link <- d_uint 4 ;;
   info <- d_uint 4 ;;
   addralign <- d_uint 8 ;;
   entsize <- d_uint 8 ;;
   dret (mkShdr name type flags addr offset size link info addralign
                entsize))%dec.

(** What [binary.Read] needs to know of the value behind its [data]
    pointer: how many bytes it occupies and how a full buffer fills it. *)
Class BinaryData (T : Type) := {
  dataSize : T -> nat;
  decode : list byte -> T
}.

#[export] Instance BinaryData_Ehdr : BinaryData Elf64Ehdr :=
  {| dataSize := fun _ => 64%nat; decode := fun buf => fst (decodeEhdr buf) |}.

#[export] Instance BinaryData_Phdr : BinaryData Elf64Phdr :=
  {| dataSize := fun _ => 56%nat; decode := fun buf => fst (decodePhdr buf) |}.

#[export] Instance BinaryData_Shdr : BinaryData Elf64Shdr :=
  {| dataSize := fun _ => 64%nat; decode := fun buf => fst (decodeShdr buf) |}.

(** A byte slice is as large as it already is, and is filled byte by byte. *)
#[export] Instance BinaryData_bytes : BinaryData (list byte) :=
  {| dataSize := fun s => List.length s; decode := fun buf => buf |}.

(** ** Run-time panics and returned errors *)

(** The run-time panics the decoding functions can raise. *)
Inductive panic : Type :=
| IndexOutOfRange (i len : Z)            (* index out of range [i] with length len *)
| SliceBoundsOutOfRange (lo hi cap : Z)  (* slice bounds out of range *)
| MakesliceLenOutOfRange.                (* makeslice: len out of range *)

(** The [error] values that reading and seeking return. *)
Inductive error : Type :=
| EOF                (* io.EOF: nothing could be read *)
| ErrUnexpectedEOF   (* io.ErrUnexpectedEOF: the source ended inside the read *)
| EINVAL.            (* seek: invalid argument *)

Inductive outcome (A : Type) : Type :=
| Returns (a : A)
| Panics (p : panic).
Arguments Returns {A} a.
Arguments Panics {A} p.

(** ** The byte source *)

(** A request made to the file. *)
Inductive FileOp : Type :=
| OpSeek (offset : Z)   (* Seek(offset, 0) *)
| OpRead (n : nat).     (* io.ReadFull into a buffer of n > 0 bytes *)

Record File := mkFile {
  content : list byte;   (* the bytes of the file *)
  pos : N;               (* the current offset *)
  trace : list FileOp    (* the requests made so far, oldest first *)
}.

(** A freshly opened file. *)
Definition openFile (bytes : list byte) : File := mkFile bytes 0 [].

(** The bytes from the current offset to the end of the file. *)
Definition remaining (f : File) : list byte :=
  skipn (N.to_nat (pos f)) (content f).

(** ** Computations on the file that may panic *)

Definition M (A : Type) : Type := File -> outcome A * File.

Definition ret {A} (a : A) : M A := fun f => (Returns a, f).

Definition bind {A B} (m : M A) (k : A -> M B) : M B :=
  fun f =>
    match m f with
    | (Returns a, f') => k a f'
    | (Panics p, f') => (Panics p, f')
    end.

(** A computation that does not touch the file. *)
Definition lift {A} (o : outcome A) : M A := fun f => (o, f).

Declare Scope go_scope.
Delimit Scope go_scope with go.
Notation "x <- m ;; k" := (bind m (fun x => k))
  (at level 61, m at next level, right associativity) : go_scope.
Notation "' pat <- m ;; k" := (bind m (fun x => match x with pat => k end))
  (at level 61, pat pattern, m at next level, right associativity) : go_scope.
Notation "m ;;; k" := (bind m (fun _ => k))
  (at level 61, right associativity) : go_scope.

(** [file.Seek(offset, 0)] on a regular file: a negative offset is refused
    and leaves the position where it was; any other offset is accepted, also
    one beyond the end of the file (the file system is taken to set no
    lower maximum of its own). *)
Definition Seek (offset : Z) : M (Z * option error) :=
  fun f =>
    let f' := mkFile (content f) (pos f) (trace f ++ [OpSeek offset]) in
    if offset <? 0
    then (Returns (0, Some EINVAL), f')
    else (Returns (offset, None), mkFile (content f) (Z.to_N offset) (trace f')).

(** [io.ReadFull(file, buf)] with [len(buf) = n]: all [n] bytes, or an error
    after consuming what was left. An empty buffer asks nothing of the
    file. *)
Definition ReadFull (n : nat) : M (list byte * option error) :=
  fun f =>
    match n with
    | O => (Returns ([], None), f)
    | S _ =>
        let avail := remaining f in
        let tr := trace f ++ [OpRead n] in
        if (n <=? List.length avail)%nat
        then (Returns (firstn n avail, None),
              mkFile (content f) (pos f + N.of_nat n) tr)
        else (Returns (avail,
                       Some (match avail with
                             | [] => EOF
                             | _ :: _ => ErrUnexpectedEOF
                             end)),
              mkFile (content f) (pos f + N.of_nat (List.length avail)) tr)
    end.

(** [binary.Read(file, binary.LittleEndian, &data)]: reads [dataSize data]
    bytes into a buffer of its own; only when the buffer is full is [data]
    overwritten, otherwise [data] keeps its value and the error is
    returned. The result is the value behind the pointer afterwards, and the
    error. *)
Definition binary_Read {T} `{BinaryData T} (data : T) : M (T * option error) :=
  ('(buf, err) <- ReadFull (dataSize data) ;;
   match err with
   | Some e => ret (data, Some e)
   | None => ret (decode buf, None)
   end)%go.

(** ** Slices *)

(** [s[i]]: checked against the length. *)
Definition index {A} (s : list A) (i : Z) : outcome A :=
  if (0 <=? i) && (i <? Z.of_nat (List.length s))
  then match nth_error s (Z.to_nat i) with
       | Some a => Returns a
       | None => Panics (IndexOutOfRange i (Z.of_nat (List.length s)))
       end
  else Panics (IndexOutOfRange i (Z.of_nat (List.length s))).

(** [s[i] = v] for an index already checked. *)
Fixpoint update {A} (s : list A) (i : nat) (v : A) : list A :=
  match s, i with
  | [], _ => []
  | _ :: rest, O => v :: rest
  | a :: rest, S j => a :: update rest j v
  end.

(** [s[lo:hi]]: checked against the capacity, which is the length. *)
Definition slice {A} (s : list A) (lo hi : Z) : outcome (list A) :=
  if (0 <=? lo) && (lo <=? hi) && (hi <=? Z.of_nat (List.length s))
  then Returns (firstn (Z.to_nat (hi - lo)) (skipn (Z.to_nat lo) s))
  else Panics (SliceBoundsOutOfRange lo hi (Z.of_nat (List.length s))).

(** The largest allocation the run time grants (64-bit Linux: 1 << 48). *)
Definition maxAlloc : Z := 2 ^ 48.

(** [make([]byte, size)] for a [uint64] size: zero-filled. *)
Definition make_bytes (size : Z) : outcome (list byte) :=
  if size <=? maxAlloc
  then Returns (repeat x00 (Z.to_nat size))
  else Panics MakesliceLenOutOfRange.

(** [for i := 0; i < n; i++ { acc = body(i, acc) }], started at [i]. *)
Fixpoint forRange {A} (n : nat) (i : Z) (body : Z -> A -> M A) (acc : A)
  : M A :=
  match n with
  | O => ret acc
  | S n' => (acc' <- body i acc ;; forRange n' (i + 1) body acc')%go
  end.

(** ** The decoding functions of [main.go] *)

(** [ReadELFHeader]: the pair of a header pointer and an [error] that it
    returns, [nil] being [None]. *)
Definition ReadELFHeader : M (option Elf64Ehdr * option error) :=
  (let ehdr := zeroEhdr in
   ' (ehdr, err) <- binary_Read ehdr ;;
   match err with
   | Some e => ret (None, Some e)
   | None => ret (Some ehdr, None)
   end)%go.

(** [JSONOutputProgramHeaders]: the slice [phdrs] handed to
    [json.MarshalIndent]. The results of [Seek] and [binary.Read] are
    discarded, as in the source. *)
Definition JSONOutputProgramHeaders (ehdr : Elf64Ehdr) : M (list Elf64Phdr) :=
  (Seek (int64 (Ehdr_Phoff ehdr)) ;;;
   phdrs <- forRange (Z.to_nat (Ehdr_Phnum ehdr)) 0
              (fun _ phdrs =>
                 let phdr := zeroPhdr in
                 ' (phdr, _) <- binary_Read phdr ;;
                 ret (phdrs ++ [phdr]))
              [] ;;
   ret phdrs)%go.

(** [PrintProgramHeaders]: the records it prints, in the order printed. *)
Definition PrintProgramHeaders (ehdr : Elf64Ehdr) : M (list Elf64Phdr) :=
  (Seek (int64 (Ehdr_Phoff ehdr)) ;;;
   forRange (Z.to_nat (Ehdr_Phnum ehdr)) 0
     (fun _ printed =>
        let phdr := zeroPhdr in
        ' (phdr, _) <- binary_Read phdr ;;
        ret (printed ++ [phdr]))
     [])%go.

(** [dumpStringTable]. *)
Definition dumpStringTable (offset size : Z) : M (list byte) :=
  (Seek (int64 offset) ;;;
   strData <- lift (make_bytes size) ;;
   ' (strData, _) <- binary_Read strData ;;
   ret strData)%go.

(** The loop of [getString]:
    [for end < uint32(len(data)) && data[end] != 0 { end++ }],
    run for at most [fuel] iterations from [end]. *)
Fixpoint getString_loop (fuel : nat) (data : list byte) (end_ : Z)
  : outcome Z :=
  match fuel with
  | O => Returns end_
  | S fuel' =>
      if end_ <? uint32 (Z.of_nat (List.length data))
      then match index data end_ with
           | Returns b =>
               if Byte.eqb b x00
               then Returns end_
               else getString_loop fuel' data (uint32 (end_ + 1))
           | Panics p => Panics p
           end
      else Returns end_
  end.

(** [getString]. Each iteration moves [end] one step closer to
    [uint32(len(data))], so that many iterations are granted;
    [getString_loop_exit] shows they always suffice. *)
Definition getString (data : list byte) (index : Z) : outcome string :=
  let fuel := Z.to_nat (uint32 (Z.of_nat (List.length data)) - index) in
  match getString_loop fuel data index with
  | Returns end_ =>
      match slice data index end_ with
      | Returns bytes => Returns (string_of_list_byte bytes)
      | Panics p => Panics p
      end
  | Panics p => Panics p
  end.

(** The first loop of [MakeSectionHeaderWithName]: with the file positioned,
    [binary.Read] into [&shdrs[i]] for each [i], errors discarded. *)
Definition readSectionHeaders (n : nat) (shdrs : list Elf64Shdr)
  : M (list Elf64Shdr) :=
  forRange n 0
    (fun i shdrs =>
       cur <- lift (index shdrs i) ;;
       ' (new, _) <- binary_Read cur ;;
       ret (update shdrs (Z.to_nat i) new))%go
    shdrs.

(** The second loop of [MakeSectionHeaderWithName]: the name is resolved and
    the other nine fields are copied from [shdrs[i]] to [shdrwns[i]]. *)
Definition bindNames (n : nat) (stringTable : list byte)
    (shdrs : list Elf64Shdr) (shdrwns : list Elf64ShdrWithName)
  : M (list Elf64ShdrWithName) :=
  forRange n 0
    (fun i shdrwns =>
       shdr <- lift (index shdrs i) ;;
       sectionName <- lift (getString stringTable (Shdr_Name shdr)) ;;
       lift (index shdrwns i) ;;;
       ret (update shdrwns (Z.to_nat i)
              {| Shwn_Name := sectionName;
                 Shwn_Type := Shdr_Type shdr;
                 Shwn_Flags := Shdr_Flags shdr;
                 Shwn_Addr := Shdr_Addr shdr;
                 Shwn_Offset := Shdr_Offset shdr;
                 Shwn_Size := Shdr_Size shdr;
                 Shwn_Link := Shdr_Link shdr;
                 Shwn_Info := Shdr_Info shdr;
                 Shwn_Addralign := Shdr_Addralign shdr;
                 Shwn_Entsize := Shdr_Entsize shdr |}))%go
    shdrwns.

(** The opening of [MakeSectionHeaderWithName], up to the end of its first
    loop ("Load section headers into a slice"): the raw section headers. *)
Definition loadSectionHeaders (ehdr : Elf64Ehdr) : M (list Elf64Shdr) :=
  (Seek (int64 (Ehdr_Shoff ehdr)) ;;;
   let shdrs := repeat zeroShdr (Z.to_nat (Ehdr_Shnum ehdr)) in
   readSectionHeaders (Z.to_nat (Ehdr_Shnum ehdr)) shdrs)%go.

(** [MakeSectionHeaderWithName]. Both arguments of the call of
    [dumpStringTable] index [shdrs] with [ehdr.Shstrndx]. *)
Definition MakeSectionHeaderWithName (ehdr : Elf64Ehdr)
  : M (list Elf64ShdrWithName) :=
  (shdrs <- loadSectionHeaders ehdr ;;
   let shdrwns := repeat zeroShdrWithName (Z.to_nat (Ehdr_Shnum ehdr)) in
   strOffset <- lift (index shdrs (Ehdr_Shstrndx ehdr)) ;;
   strSize <- lift (index shdrs (Ehdr_Shstrndx ehdr)) ;;
   stringTable <- dumpStringTable (Shdr_Offset strOffset) (Shdr_Size strSize) ;;
   shdrwns <- bindNames (Z.to_nat (Ehdr_Shnum ehdr)) stringTable shdrs shdrwns ;;
   ret shdrwns)%go.

(** [main] with the option [-jS] on a file holding [bytes]: the header is
    read from the freshly opened file, then the sections are listed. *)
Definition main_jS (bytes : list byte) : outcome (option (list Elf64ShdrWithName)) * File :=
  (' (ehdr, err) <- ReadELFHeader ;;
   match ehdr with
   | None => ret None   (* os.Exit(1) *)
   | Some ehdr => shdrwns <- MakeSectionHeaderWithName ehdr ;; ret (Some shdrwns)
   end)%go (openFile bytes).

(** [main] with the option [-jl] on a file holding [bytes]. *)
Definition main_jl (bytes : list byte) : outcome (option (list Elf64Phdr)) * File :=
  (' (ehdr, err) <- ReadELFHeader ;;
   match ehdr with
   | None => ret None   (* os.Exit(1) *)
   | Some ehdr => phdrs <- JSONOutputProgramHeaders ehdr ;; ret (Some phdrs)
   end)%go (openFile bytes).

(** ** The other functions of [main.go] *)

(** Sequencing of computations that touch no file. *)
Definition obind {A B} (o : outcome A) (k : A -> outcome B) : outcome B :=
  match o with
  | Returns a => k a
  | Panics p => Panics p
  end.

Declare Scope outcome_scope.
Delimit Scope outcome_scope with out.
Notation "x <- o ;; k" := (obind o (fun x => k))
  (at level 61, o at next level, right associativity) : outcome_scope.

(** [PrintELFHeader]: the bytes printed after "Magic:" (the loop ranges over
    all of [ehdr.Ident]) and then the labelled values, in the order
    printed. *)
Definition PrintELFHeader (ehdr : Elf64Ehdr)
  : outcome (list byte * list (string * Z)) :=
  (let ident := Ehdr_Ident ehdr in
   class <- index ident 4 ;;
   data <- index ident 5 ;;
   version <- index ident 6 ;;
   osabi <- index ident 7 ;;
   abiversion <- index ident 8 ;;
   Returns
     (ident,
      [("Class", byteZ class);
       ("Data", byteZ data);
       ("Version", byteZ version);
       ("OS/ABI", byteZ osabi);
       ("ABI Version", byteZ abiversion);
       ("Type", Ehdr_Type ehdr);
       ("Machine", Ehdr_Machine ehdr);
       ("Version", Ehdr_Version ehdr);
       ("Entry point address", Ehdr_Entry ehdr);
       ("Start of program headers", Ehdr_Phoff ehdr);
       ("Start of section headers", Ehdr_Shoff ehdr);
       ("Flags", Ehdr_Flags ehdr);
       ("Size of this header", Ehdr_Ehsize ehdr);
       ("Size of program headers", Ehdr_Phentsize ehdr);
       ("Number of program headers", Ehdr_Phnum ehdr);
       ("Size of section headers", Ehdr_Shentsize ehdr);
       ("Number of section headers", Ehdr_Shnum ehdr);
       ("Section header string table index", Ehdr_Shstrndx ehdr)]%string))%out.

(** [PrintSectionHeaders]: the entries it prints, each with the index
    printed in front of it. Every field it prints is read through
    [shdrwns[i]]. *)
Definition PrintSectionHeaders (ehdr : Elf64Ehdr)
  : M (list (Z * Elf64ShdrWithName)) :=
  (shdrwns <- MakeSectionHeaderWithName ehdr ;;
   forRange (Z.to_nat (Ehdr_Shnum ehdr)) 0
     (fun i printed =>
        entry <- lift (index shdrwns i) ;;
        ret (printed ++ [(i, entry)]))
     [])%go.

(** [JSONOutputSectionHeaders]: the slice handed to [json.MarshalIndent]. *)
Definition JSONOutputSectionHeaders (ehdr : Elf64Ehdr)
  : M (list Elf64ShdrWithName) :=
  MakeSectionHeaderWithName ehdr.

(** What a run of [main] writes to the standard output: the values handed
    to the renderer, tagged with the function that renders them.
    [json.MarshalIndent] cannot fail on these records (integers, byte arrays
    and strings), so the [os.Exit(1)] behind it is never reached. *)
Inductive output : Type :=
| HeaderText (magic : list byte) (lines : list (string * Z))
| HeaderJSON (ehdr : option Elf64Ehdr)   (* a nil pointer renders as null *)
| ProgramText (phdrs : list Elf64Phdr)
| ProgramJSON (phdrs : list Elf64Phdr)
| SectionText (entries : list (Z * Elf64ShdrWithName))
| SectionJSON (shdrwns : list Elf64ShdrWithName).

(** The four messages [main] writes to the standard error before
    [os.Exit(1)]. *)
Inductive message : Type :=
| Usage (program : string)
| ErrorOpeningFile (fileName : string)
| ErrorReadingHeader (e : error)
| InvalidOption (option : string).

(** How a run of [main] ends. *)
Inductive termination : Type :=
| Exit0 (out : output)    (* [main] returns *)
| Exit1 (msg : message)   (* [os.Exit(1)] *)
| Crash (p : panic)       (* an unrecovered panic of the decoding *)
| NilDereference.         (* a field of a nil [ehdr] is read *)

(** A function that reads the fields of [*ehdr]. *)
Definition withHeader (ehdr : option Elf64Ehdr)
    (k : Elf64Ehdr -> termination) : termination :=
  match ehdr with
  | Some h => k h
  | None => NilDereference
  end.

Definition finish {A} (render : A -> output) (r : outcome A * File)
  : termination :=
  match fst r with
  | Returns a => Exit0 (render a)
  | Panics p => Crash p
  end.

(** The [switch] of [main] over the option, once the header is read. *)
Definition dispatch (option_ : string) (ehdr : option Elf64Ehdr) (file : File)
  : termination :=
  if (option_ =? "-h")%string
  then withHeader ehdr (fun h =>
         finish (fun r => HeaderText (fst r) (snd r)) (PrintELFHeader h, file))
  else if (option_ =? "-l")%string
  then withHeader ehdr (fun h =>
         finish ProgramText (PrintProgramHeaders h file))
  else if (option_ =? "-S")%string
  then withHeader ehdr (fun h =>
         finish SectionText (PrintSectionHeaders h file))
  else if (option_ =? "-jh")%string
  then Exit0 (HeaderJSON ehdr)
  else if (option_ =? "-jl")%string
  then withHeader ehdr (fun h =>
         finish ProgramJSON (JSONOutputProgramHeaders h file))
  else if (option_ =? "-jS")%string
  then withHeader ehdr (fun h =>
         finish SectionJSON (JSONOutputSectionHeaders h file))
  else Exit1 (InvalidOption option_).

(** [main], given [os.Args] and what [os.Open] finds under a name ([None]
    when it fails). The option is looked at only after the file was opened
    and its header read. *)
Definition main (open : string -> option (list byte)) (Args : list string)
  : termination :=
  if negb (List.length Args =? 3)%nat
  then match index Args 0 with
       | Returns program => Exit1 (Usage program)
       | Panics p => Crash p
       end
  else
    match index Args 1, index Args 2 with
    | Returns option, Returns fileName =>
        match open fileName with
        | None => Exit1 (ErrorOpeningFile fileName)
        | Some bytes =>
            match ReadELFHeader (openFile bytes) with
            | (Returns (_, Some e), _) => Exit1 (ErrorReadingHeader e)
            | (Returns (ehdr, None), file) => dispatch option ehdr file
            | (Panics p, _) => Crash p
            end
        end
    | Panics p, _ => Crash p
    | _, Panics p => Crash p
    end.

(** The options that the usage message of [main] advertises. *)
Definition advertisedOptions : list string :=
  ["-h"; "-l"; "-S"; "-j"; "-jh"; "-jl"; "-jS"]%string.

(** The options for which the [switch] of [main] has a case. *)
Definition handledOptions : list string :=
  ["-h"; "-l"; "-S"; "-jh"; "-jl"; "-jS"]%string.

(** ** Reference notions used in the statements *)

(** The [n] bytes of [l] at offset [off] (fewer if [l] ends before). *)
Definition bytesAt (off n : nat) (l : list byte) : list byte :=
  firstn n (skipn off l).

(** The bytes of [bs] before its first NUL, or all of [bs] if it has none. *)
Fixpoint untilNUL (bs : list byte) : list byte :=
  match bs with
  | [] => []
  | b :: rest => if Byte.eqb b x00 then [] else b :: untilNUL rest
  end.

(** [binary.LittleEndian.PutUintN]: the [n] low bytes of [v], least
    significant first. *)
Fixpoint putLittleEndian (n : nat) (v : Z) : list byte :=
  match n with
  | O => []
  | S n' => byte_of_Z v :: putLittleEndian n' (v / 256)
  end.

(** Modelled from the spec: the encoder of the file header, which [main.go]
    does not have ("if an encoder is added"); it writes the fields of the
    record in their declared order with the fixed little-endian layout that
    [ReadELFHeader] reads. *)
Definition encodeEhdr (h : Elf64Ehdr) : list byte :=
  Ehdr_Ident h
  ++ putLittleEndian 2 (Ehdr_Type h)
  ++ putLittleEndian 2 (Ehdr_Machine h)
  ++ putLittleEndian 4 (Ehdr_Version h)
  ++ putLittleEndian 8 (Ehdr_Entry h)
  ++ putLittleEndian 8 (Ehdr_Phoff h)
  ++ putLittleEndian 8 (Ehdr_Shoff h)
  ++ putLittleEndian 4 (Ehdr_Flags h)
  ++ putLittleEndian 2 (Ehdr_Ehsize h)
  ++ putLittleEndian 2 (Ehdr_Phentsize h)
  ++ putLittleEndian 2 (Ehdr_Phnum h)
  ++ putLittleEndian 2 (Ehdr_Shentsize h)
  ++ putLittleEndian 2 (Ehdr_Shnum h)
  ++ putLittleEndian 2 (Ehdr_Shstrndx h).

(** The nine fields that a raw and a resolved section header share. *)
Definition rawFields (s : Elf64Shdr) : list Z :=
  [Shdr_Type s; Shdr_Flags s; Shdr_Addr s; Shdr_Offset s; Shdr_Size s;
   Shdr_Link s; Shdr_Info s; Shdr_Addralign s; Shdr_Entsize s].

Definition resolvedFields (s : Elf64ShdrWithName) : list Z :=
  [Shwn_Type s; Shwn_Flags s; Shwn_Addr s; Shwn_Offset s; Shwn_Size s;
   Shwn_Link s; Shwn_Info s; Shwn_Addralign s; Shwn_Entsize s].

(** The fixed layout of the ELF64 file header over a buffer: the 16-byte
    identification, then 2 x uint16, uint32, 3 x uint64, uint32, 6 x uint16,
    each little-endian at its offset. *)
Definition headerLayout (buf : list byte) : Elf64Ehdr :=
  {| Ehdr_Ident     := bytesAt 0 16 buf;
     Ehdr_Type      := littleEndian (bytesAt 16 2 buf);
     Ehdr_Machine   := littleEndian (bytesAt 18 2 buf);
     Ehdr_Version   := littleEndian (bytesAt 20 4 buf);
     Ehdr_Entry     := littleEndian (bytesAt 24 8 buf);
     Ehdr_Phoff     := littleEndian (bytesAt 32 8 buf);
     Ehdr_Shoff     := littleEndian (bytesAt 40 8 buf);
     Ehdr_Flags     := littleEndian (bytesAt 48 4 buf);
     Ehdr_Ehsize    := littleEndian (bytesAt 52 2 buf);
     Ehdr_Phentsize := littleEndian (bytesAt 54 2 buf);
     Ehdr_Phnum     := littleEndian (bytesAt 56 2 buf);
     Ehdr_Shentsize := littleEndian (bytesAt 58 2 buf);
     Ehdr_Shnum     := littleEndian (bytesAt 60 2 buf);
     Ehdr_Shstrndx  := littleEndian (bytesAt 62 2 buf) |}.

(** What the specification says of name resolution: the result is the text
    of the bytes from the index up to the next NUL or the end of the
    table. *)
Definition resolvesName (data : list byte) (idx : Z) : Prop :=
  getString data idx =
    Returns (string_of_list_byte (untilNUL (skipn (Z.to_nat idx) data))).

(** [s] is the longest run without NUL that starts at [idx] in [data]: the
    table goes on from [idx] with [s], [s] holds no NUL, and what follows
    [s] is the end of the table or a NUL. *)
Definition longestNULFreeRun (data : list byte) (idx : Z) (s : list byte)
  : Prop :=
  exists rest,
    skipn (Z.to_nat idx) data = s ++ rest /\
    ~ In x00 s /\
    (rest = [] \/ exists r, rest = x00 :: r).

(** The source after [io.ReadFull] was asked for [n > 0] bytes: it is
    further by [n] bytes, or at its end if it held fewer. *)
Definition afterRead (n : nat) (f : File) : File :=
  mkFile (content f)
    (pos f + N.of_nat (Nat.min n (List.length (remaining f))))
    (trace f ++ [OpRead n]).

(** The position [Seek(int64(offset), 0)] leaves the source at: an offset
    of 2^63 or more converts to a negative [int64], which is refused. *)
Definition seekTarget (f : File) (offset : Z) : N :=
  if int64 offset <? 0 then pos f else Z.to_N (int64 offset).

Definition afterSeek (offset : Z) (f : File) : File :=
  mkFile (content f) (seekTarget f offset) (trace f ++ [OpSeek (int64 offset)]).

(** The program header number [i] of a table that starts at offset [start]:
    decoded from its 56 bytes when they all lie within the source, and the
    zero record otherwise. *)
Definition programHeaderAt (bytes : list byte) (start i : nat) : Elf64Phdr :=
  if (start + 56 * (i + 1) <=? List.length bytes)%nat
  then decode (bytesAt (start + 56 * i) 56 bytes)
  else zeroPhdr.

(** The section header number [i] of a table that starts at offset
    [start], likewise with its 64 bytes. *)
Definition sectionHeaderAt (bytes : list byte) (start i : nat) : Elf64Shdr :=
  if (start + 64 * (i + 1) <=? List.length bytes)%nat
  then decode (bytesAt (start + 64 * i) 64 bytes)
  else zeroShdr.

(** The fixed layout of the ELF64 program header over its 56 bytes:
    2 x uint32, then 6 x uint64. *)
Definition programLayout (buf : list byte) : Elf64Phdr :=
  {| Phdr_Type   := littleEndian (bytesAt 0 4 buf);
     Phdr_Flags  := littleEndian (bytesAt 4 4 buf);
     Phdr_Offset := littleEndian (bytesAt 8 8 buf);
     Phdr_Vaddr  := littleEndian (bytesAt 16 8 buf);
     Phdr_Paddr  := littleEndian (bytesAt 24 8 buf);
     Phdr_Filesz := littleEndian (bytesAt 32 8 buf);
     Phdr_Memsz  := littleEndian (bytesAt 40 8 buf);
     Phdr_Align  := littleEndian (bytesAt 48 8 buf) |}.

(** The fixed layout of the ELF64 section header over its 64 bytes:
    2 x uint32, 4 x uint64, 2 x uint32, 2 x uint64. *)
Definition sectionLayout (buf : list byte) : Elf64Shdr :=
  {| Shdr_Name      := littleEndian (bytesAt 0 4 buf);
     Shdr_Type      := littleEndian (bytesAt 4 4 buf);
     Shdr_Flags     := littleEndian (bytesAt 8 8 buf);
     Shdr_Addr      := littleEndian (bytesAt 16 8 buf);
     Shdr_Offset    := littleEndian (bytesAt 24 8 buf);
     Shdr_Size      := littleEndian (bytesAt 32 8 buf);
     Shdr_Link      := littleEndian (bytesAt 40 4 buf);
     Shdr_Info      := littleEndian (bytesAt 44 4 buf);
     Shdr_Addralign := littleEndian (bytesAt 48 8 buf);
     Shdr_Entsize   := littleEndian (bytesAt 56 8 buf) |}.



(** The raw section headers of a source whose table was sought at
    [start]. *)
Definition rawSectionHeaders (bytes : list byte) (start : N) (ehdr : Elf64Ehdr)
  : list Elf64Shdr :=
  map (sectionHeaderAt bytes (N.to_nat start))
      (seq 0 (Z.to_nat (Ehdr_Shnum ehdr))).


(** ** Sample inputs *)

(** The table of the specification's example: "ab", NUL, "cd", NUL. *)
Definition sampleTable : list byte := [x61; x62; x00; x63; x64; x00].

(** An ELF64 file of 64 bytes: a header declaring no program header and no
    section header ([e_shnum = 0], [e_shstrndx = 0]). *)
Definition headerOnlyELF : list byte :=
  [x7f; x45; x4c; x46; x02; x01; x01; x00; x00; x00; x00; x00; x00; x00; x00; x00;
   x02; x00; x3e; x00; x01; x00; x00; x00;
   x00; x00; x00; x00; x00; x00; x00; x00;
   x00; x00; x00; x00; x00; x00; x00; x00;
   x00; x00; x00; x00; x00; x00; x00; x00;
   x00; x00; x00; x00; x40; x00; x00; x00; x00; x00; x00; x00; x00; x00; x00; x00].

(** An ELF64 file of 203 bytes: the header, the string table
    NUL ".shstrtab" NUL at offset 64, and at offset 75 two section headers:
    the null section and a section of type 3, offset 64 and size 11 (the
    string table itself) whose name index is [name]. *)
Definition sectionsELF (name : byte) : list byte :=
  [x7f; x45; x4c; x46; x02; x01; x01; x00; x00; x00; x00; x00; x00; x00; x00; x00;
   x01; x00; x3e; x00; x01; x00; x00; x00;
   x00; x00; x00; x00; x00; x00; x00; x00;
   x00; x00; x00; x00; x00; x00; x00; x00;
   x4b; x00; x00; x00; x00; x00; x00; x00;
   x00; x00; x00; x00; x40; x00; x00; x00; x00; x00; x40; x00; x02; x00; x01; x00]
  ++ [x00; x2e; x73; x68; x73; x74; x72; x74; x61; x62; x00]
  ++ repeat x00 64
  ++ [name; x00; x00; x00; x03; x00; x00; x00;
      x00; x00; x00; x00; x00; x00; x00; x00;
      x00; x00; x00; x00; x00; x00; x00; x00;
      x40; x00; x00; x00; x00; x00; x00; x00;
      x0b; x00; x00; x00; x00; x00; x00; x00;
      x00; x00; x00; x00; x00; x00; x00; x00;
      x01; x00; x00; x00; x00; x00; x00; x00;
      x00; x00; x00; x00; x00; x00; x00; x00].

(** The well-formed file: the second section is named by index 1,
    ".shstrtab". *)
Definition twoSectionELF : list byte := sectionsELF x01.

(** The same file with the name index 12, one beyond the end of the
    11-byte string table. *)
Definition badNameELF : list byte := sectionsELF x0c.

(** A table of 2^32 bytes, none of them NUL. *)
Definition table4GiB : list byte := repeat x61 (Z.to_nat (2 ^ 32)).

(** An ELF64 file of 74 bytes: a header declaring one program header of 56
    bytes at offset 64, followed by the first 10 bytes of it only. *)
Definition truncatedProgramELF : list byte :=
  [x7f; x45; x4c; x46; x02; x01; x01; x00; x00; x00; x00; x00; x00; x00; x00; x00;
   x02; x00; x3e; x00; x01; x00; x00; x00;
   x00; x00; x00; x00; x00; x00; x00; x00;
   x40; x00; x00; x00; x00; x00; x00; x00;
   x00; x00; x00; x00; x00; x00; x00; x00;
   x00; x00; x00; x00; x40; x00; x38; x00; x01; x00; x40; x00; x00; x00; x00; x00]
  ++ [x01; x00; x00; x00; x05; x00; x00; x00; x00; x10].

(** A header as [twoSectionELF] declares it, except that its string-table
    index is 5 where there are 2 sections. *)
Definition badIndexHeader : Elf64Ehdr :=
  mkEhdr (firstn 16 twoSectionELF) 1 62 1 0 0 75 0 64 0 0 64 2 5.

(** The resolved headers of [twoSectionELF], as [-jS] lists them. *)
Definition twoSectionNames : list Elf64ShdrWithName :=
  [mkShdrWithName EmptyString 0 0 0 0 0 0 0 0 0;
   mkShdrWithName ".shstrtab" 3 0 0 64 11 0 0 1 0].

(** An ELF64 file of 120 bytes: a header declaring one program header of 56
    bytes, followed by that program header (type 1, flags 5, offset 0,
    addresses 0x400000, sizes 120, alignment 0x1000). The declared offset
    of the table is 64 plus [top] * 2^56. *)
Definition programELF (top : byte) : list byte :=
  [x7f; x45; x4c; x46; x02; x01; x01; x00; x00; x00; x00; x00; x00; x00; x00; x00;
   x02; x00; x3e; x00; x01; x00; x00; x00;
   x00; x00; x40; x00; x00; x00; x00; x00;
   x40; x00; x00; x00; x00; x00; x00; top;
   x00; x00; x00; x00; x00; x00; x00; x00;
   x00; x00; x00; x00; x40; x00; x38; x00; x01; x00; x40; x00; x00; x00; x00; x00]
  ++ [x01; x00; x00; x00; x05; x00; x00; x00;
      x00; x00; x00; x00; x00; x00; x00; x00;
      x00; x00; x40; x00; x00; x00; x00; x00;
      x00; x00; x40; x00; x00; x00; x00; x00;
      x78; x00; x00; x00; x00; x00; x00; x00;
      x78; x00; x00; x00; x00; x00; x00; x00;
      x00; x10; x00; x00; x00; x00; x00; x00].

(** The well-formed file: the table is declared at offset 64. *)
Definition oneProgramELF : list byte := programELF x00.

(** The same bytes with the table declared at offset 64 + 2^63. *)
Definition farProgramELF : list byte := programELF x80.

(** The program header both files hold at offset 64. *)
Definition loadSegment : Elf64Phdr :=
  mkPhdr 1 5 0 4194304 4194304 120 120 4096.


(** [twoSectionELF] with the size of the string table raised by 2^48. *)
Definition oversizedTableELF : list byte := update twoSectionELF 177 x01.


(** * Properties *)

(** ** Bytes and little-endian integers *)

Lemma byteZ_range (b : byte) : 0 <= byteZ b < 256.
Proof.
  unfold byteZ. pose proof (Byte.to_N_bounded b). lia.
Qed.

Lemma byte_of_Z_byteZ (b : byte) : byte_of_Z (byteZ b) = b.
Proof.
  unfold byte_of_Z.
  rewrite Z.mod_small by apply byteZ_range.
  unfold byteZ. rewrite N2Z.id, Byte.of_to_N. reflexivity.
Qed.

Lemma byte_of_Z_low (a x : Z) : byte_of_Z (a + 256 * x) = byte_of_Z a.
Proof.
  unfold byte_of_Z.
  rewrite (Z.mul_comm 256 x), Z_mod_plus_full. reflexivity.
Qed.

Lemma littleEndian_range (bs : list byte) :
  0 <= littleEndian bs < 256 ^ Z.of_nat (List.length bs).
Proof.
  induction bs as [|b bs IH]; cbn [littleEndian List.length].
  - cbn. lia.
  - rewrite Nat2Z.inj_succ, Z.pow_succ_r by lia.
    pose proof (byteZ_range b). lia.
Qed.

(** Writing back the bytes of a little-endian integer restores them. *)
Lemma putLittleEndian_littleEndian (bs : list byte) :
  putLittleEndian (List.length bs) (littleEndian bs) = bs.
Proof.
  induction bs as [|b bs IH]; cbn [littleEndian List.length putLittleEndian].
  - reflexivity.
  - rewrite byte_of_Z_low, byte_of_Z_byteZ. f_equal.
    rewrite (Z.mul_comm 256), Z.div_add by lia.
    rewrite Z.div_small by apply byteZ_range.
    exact IH.
Qed.

(** ** Windows of a buffer *)

Lemma bytesAt_length (off n : nat) (l : list byte) :
  (off + n <= List.length l)%nat -> List.length (bytesAt off n l) = n.
Proof.
  intros H. unfold bytesAt. rewrite length_firstn, length_skipn. lia.
Qed.

Lemma bytesAt_firstn (off n m : nat) (l : list byte) :
  (off + n <= m)%nat -> bytesAt off n (firstn m l) = bytesAt off n l.
Proof.
  intros H. unfold bytesAt.
  rewrite skipn_firstn_comm, firstn_firstn.
  f_equal. lia.
Qed.

Lemma bytesAt_skipn (off n k : nat) (l : list byte) :
  bytesAt off n (skipn k l) = bytesAt (off + k) n l.
Proof.
  unfold bytesAt. rewrite skipn_skipn. reflexivity.
Qed.

Lemma bytesAt_app_skipn (off n m : nat) (l : list byte) :
  m = (n + off)%nat -> bytesAt off n l ++ skipn m l = skipn off l.
Proof.
  intros ->. unfold bytesAt. rewrite <- skipn_skipn. apply firstn_skipn.
Qed.

Lemma putLittleEndian_bytesAt (off n : nat) (l : list byte) :
  (off + n <= List.length l)%nat ->
  putLittleEndian n (littleEndian (bytesAt off n l)) = bytesAt off n l.
Proof.
  intros H.
  rewrite <- (bytesAt_length off n l H) at 1.
  apply putLittleEndian_littleEndian.
Qed.

(** ** The file header *)

(** The cursor of [binary.Read] places every field of the header where the
    fixed layout says. *)
Lemma decodeEhdr_layout (buf : list byte) :
  fst (decodeEhdr buf) = headerLayout buf.
Proof.
  cbv beta iota delta [decodeEhdr dbind d_array d_uint dret fst].
  unfold headerLayout, bytesAt.
  rewrite !skipn_skipn. reflexivity.
Qed.

Lemma headerLayout_firstn (l : list byte) :
  headerLayout (firstn 64 l) = headerLayout l.
Proof.
  unfold headerLayout.
  rewrite !bytesAt_firstn by lia. reflexivity.
Qed.

Lemma encodeEhdr_headerLayout (buf : list byte) :
  List.length buf = 64%nat -> encodeEhdr (headerLayout buf) = buf.
Proof.
  intros Hlen. unfold encodeEhdr, headerLayout.
  cbv beta iota delta [Ehdr_Ident Ehdr_Type Ehdr_Machine Ehdr_Version
    Ehdr_Entry Ehdr_Phoff Ehdr_Shoff Ehdr_Flags Ehdr_Ehsize Ehdr_Phentsize
    Ehdr_Phnum Ehdr_Shentsize Ehdr_Shnum Ehdr_Shstrndx].
  rewrite !putLittleEndian_bytesAt by lia.
  assert (Hlast : bytesAt 62 2 buf = skipn 62 buf).
  { unfold bytesAt. apply firstn_all2. rewrite length_skipn. lia. }
  rewrite Hlast.
  rewrite (bytesAt_app_skipn 60 2 62) by reflexivity.
  rewrite (bytesAt_app_skipn 58 2 60) by reflexivity.
  rewrite (bytesAt_app_skipn 56 2 58) by reflexivity.
  rewrite (bytesAt_app_skipn 54 2 56) by reflexivity.
  rewrite (bytesAt_app_skipn 52 2 54) by reflexivity.
  rewrite (bytesAt_app_skipn 48 4 52) by reflexivity.
  rewrite (bytesAt_app_skipn 40 8 48) by reflexivity.
  rewrite (bytesAt_app_skipn 32 8 40) by reflexivity.
  rewrite (bytesAt_app_skipn 24 8 32) by reflexivity.
  rewrite (bytesAt_app_skipn 20 4 24) by reflexivity.
  rewrite (bytesAt_app_skipn 18 2 20) by reflexivity.
  rewrite (bytesAt_app_skipn 16 2 18) by reflexivity.
  rewrite (bytesAt_app_skipn 0 16 16) by reflexivity.
  reflexivity.
Qed.

Lemma ReadFull_enough (n : nat) (f : File) :
  (n <= List.length (remaining f))%nat -> n <> O ->
  ReadFull n f =
    (Returns (firstn n (remaining f), None),
     mkFile (content f) (pos f + N.of_nat n) (trace f ++ [OpRead n])).
Proof.
  intros Hle Hn. unfold ReadFull.
  destruct n as [|n']; [congruence|].
  apply Nat.leb_le in Hle. rewrite Hle. reflexivity.
Qed.

Lemma ReadFull_short (n : nat) (f : File) :
  (List.length (remaining f) < n)%nat ->
  ReadFull n f =
    (Returns (remaining f,
              Some (match remaining f with
                    | [] => EOF
                    | _ :: _ => ErrUnexpectedEOF
                    end)),
     mkFile (content f) (pos f + N.of_nat (List.length (remaining f)))
       (trace f ++ [OpRead n])).
Proof.
  intros Hlt. unfold ReadFull.
  destruct n as [|n']; [lia|].
  apply Nat.leb_gt in Hlt. rewrite Hlt. reflexivity.
Qed.

Lemma ReadELFHeader_enough (f : File) :
  (64 <= List.length (remaining f))%nat ->
  ReadELFHeader f =
    (Returns (Some (headerLayout (remaining f)), None),
     mkFile (content f) (pos f + 64) (trace f ++ [OpRead 64])).
Proof.
  intros Hlen.
  cbv beta iota zeta delta [ReadELFHeader binary_Read bind ret dataSize decode
                             BinaryData_Ehdr].
  rewrite ReadFull_enough by (auto; lia).
  rewrite decodeEhdr_layout, headerLayout_firstn. reflexivity.
Qed.

Lemma ReadELFHeader_short (f : File) :
  (List.length (remaining f) < 64)%nat ->
  ReadELFHeader f =
    (Returns (None,
              Some (match remaining f with
                    | [] => EOF
                    | _ :: _ => ErrUnexpectedEOF
                    end)),
     mkFile (content f) (pos f + N.of_nat (List.length (remaining f)))
       (trace f ++ [OpRead 64])).
Proof.
  intros Hlen.
  cbv beta iota zeta delta [ReadELFHeader binary_Read bind ret dataSize decode
                             BinaryData_Ehdr].
  rewrite ReadFull_short by assumption. reflexivity.
Qed.

(** C8. [ReadELFHeader] asks the source for exactly 64 bytes at its current
    position. When that many are there it returns the header whose fields
    are the little-endian integers at the offsets of the fixed layout, in
    the declared order, and leaves the source 64 bytes further. When fewer
    are there it returns an error ([io.EOF] if nothing was left,
    [io.ErrUnexpectedEOF] otherwise) and no header. *)
Theorem ReadELFHeader_reads_fixed_header (f : File) :
  ReadELFHeader f =
    if (64 <=? List.length (remaining f))%nat
    then (Returns (Some (headerLayout (remaining f)), None),
          mkFile (content f) (pos f + 64) (trace f ++ [OpRead 64]))
    else (Returns (None,
                   Some (match remaining f with
                         | [] => EOF
                         | _ :: _ => ErrUnexpectedEOF
                         end)),
          mkFile (content f) (pos f + N.of_nat (List.length (remaining f)))
            (trace f ++ [OpRead 64])).
Proof.
  destruct (64 <=? List.length (remaining f))%nat eqn:Hlen.
  - apply Nat.leb_le in Hlen. apply ReadELFHeader_enough, Hlen.
  - apply Nat.leb_gt in Hlen. apply ReadELFHeader_short, Hlen.
Qed.

(** C9. A buffer of exactly 64 bytes, decoded as a file header (by
    [binary.Read], and so by [ReadELFHeader] on a source holding it) and
    written back field by field in the same little-endian layout, is
    restored byte for byte. In particular the decoded header determines the
    buffer: no two buffers of 64 bytes decode to the same header. *)
Theorem header_decode_encode_roundtrip (buf : list byte) :
  List.length buf = 64%nat ->
  encodeEhdr (decode buf) = buf /\
  (exists f',
      ReadELFHeader (openFile buf) = (Returns (Some (decode buf), None), f')) /\
  (forall buf' : list byte,
      List.length buf' = 64%nat ->
      @decode Elf64Ehdr _ buf' = decode buf -> buf' = buf).
Proof.
  intros Hlen.
  assert (Hdec : forall b, @decode Elf64Ehdr _ b = headerLayout b)
    by apply decodeEhdr_layout.
  split; [|split].
  - rewrite Hdec. apply encodeEhdr_headerLayout, Hlen.
  - rewrite ReadELFHeader_enough, Hdec.
    + eexists. reflexivity.
    + unfold remaining, openFile. cbn [pos content N.to_nat skipn]. lia.
  - intros buf' Hlen' Heq.
    rewrite <- (encodeEhdr_headerLayout buf' Hlen').
    rewrite <- (encodeEhdr_headerLayout buf Hlen).
    rewrite <- !Hdec, Heq. reflexivity.
Qed.

Lemma header_decode_encode_roundtrip_witness :
  encodeEhdr (decode headerOnlyELF) = headerOnlyELF /\
  (exists f',
      ReadELFHeader (openFile headerOnlyELF)
      = (Returns (Some (decode headerOnlyELF), None), f')) /\
  (forall buf' : list byte,
      List.length buf' = 64%nat ->
      @decode Elf64Ehdr _ buf' = decode headerOnlyELF -> buf' = headerOnlyELF).
Proof.
  apply (header_decode_encode_roundtrip headerOnlyELF). reflexivity.
Defined.

(** ** Resolving a name: [getString] *)

Lemma uint32_len_bounds (n : nat) :
  0 <= uint32 (Z.of_nat n) <= Z.of_nat n /\ uint32 (Z.of_nat n) < 2 ^ 32.
Proof.
  unfold uint32.
  pose proof (Z.mod_pos_bound (Z.of_nat n) (2 ^ 32) ltac:(lia)).
  pose proof (Z.mod_le (Z.of_nat n) (2 ^ 32) ltac:(lia) ltac:(lia)).
  lia.
Qed.

Lemma uint32_small (z : Z) : 0 <= z < 2 ^ 32 -> uint32 z = z.
Proof. intros H. unfold uint32. apply Z.mod_small, H. Qed.

Lemma skipn_nth_error {A} (l : list A) (n : nat) (a : A) :
  nth_error l n = Some a -> skipn n l = a :: skipn (S n) l.
Proof.
  revert l. induction n as [|n IH]; intros [|x l] H; cbn in H; try discriminate.
  - injection H as ->. reflexivity.
  - cbn [skipn]. rewrite (IH l H). reflexivity.
Qed.

Lemma index_in_range {A} (s : list A) (i : Z) :
  0 <= i < Z.of_nat (List.length s) ->
  exists a, index s i = Returns a /\ nth_error s (Z.to_nat i) = Some a.
Proof.
  intros H. unfold index.
  destruct (nth_error s (Z.to_nat i)) as [a|] eqn:Hnth.
  - exists a. split; [|reflexivity].
    replace ((0 <=? i) && (i <? Z.of_nat (List.length s))) with true;
      [reflexivity|].
    symmetry. apply andb_true_iff. split; [apply Z.leb_le | apply Z.ltb_lt]; lia.
  - apply nth_error_None in Hnth. lia.
Qed.

Lemma untilNUL_length (l : list byte) :
  (List.length (untilNUL l) <= List.length l)%nat.
Proof.
  induction l as [|b l IH]; cbn [untilNUL List.length]; [lia|].
  destruct (Byte.eqb b x00); cbn [List.length]; lia.
Qed.

Lemma untilNUL_prefix (l : list byte) :
  firstn (List.length (untilNUL l)) l = untilNUL l.
Proof.
  induction l as [|b l IH]; cbn [untilNUL]; [reflexivity|].
  destruct (Byte.eqb b x00); cbn [List.length firstn]; [reflexivity|].
  rewrite IH. reflexivity.
Qed.

(** The run ends at the end of the list or just before a NUL, and holds no
    NUL itself. *)
Lemma untilNUL_split (l : list byte) :
  exists rest,
    l = untilNUL l ++ rest /\
    ~ In x00 (untilNUL l) /\
    (rest = [] \/ exists r, rest = x00 :: r).
Proof.
  induction l as [|b l (rest & Hl & Hnot & Hrest)]; cbn [untilNUL].
  - exists []. repeat split; auto.
  - destruct (Byte.eqb b x00) eqn:Hb.
    + apply Byte.byte_dec_bl in Hb. subst b.
      exists (x00 :: l). repeat split; eauto.
    + exists rest. repeat split; auto.
      * cbn [app]. rewrite <- Hl. reflexivity.
      * intros [Heq | Hin]; [|auto].
        subst b. discriminate Hb.
Qed.

Lemma untilNUL_no_NUL (l : list byte) : ~ In x00 l -> untilNUL l = l.
Proof.
  induction l as [|b l IH]; intros Hnot; cbn [untilNUL]; [reflexivity|].
  destruct (Byte.eqb b x00) eqn:Hb.
  - apply Byte.byte_dec_bl in Hb. subst b. exfalso. apply Hnot. left. reflexivity.
  - rewrite IH; [reflexivity|]. intros Hin. apply Hnot. right. exact Hin.
Qed.

Section GetString.

(** The string table handed to [getString]. *)
Variable data : list byte.

(** The loop stops at the first NUL at or after [end], or at
    [uint32(len(data))] if there is none before; it never indexes out of
    range, and [end++] never wraps. *)
Lemma getString_loop_run (fuel : nat) :
  forall end_ : Z,
    0 <= end_ ->
    uint32 (Z.of_nat (List.length data)) - end_ <= Z.of_nat fuel ->
    getString_loop fuel data end_ =
      Returns
        (end_ +
         Z.of_nat
           (List.length
              (untilNUL
                 (firstn
                    (Z.to_nat (uint32 (Z.of_nat (List.length data)) - end_))
                    (skipn (Z.to_nat end_) data))))).
Proof.
  pose proof (uint32_len_bounds (List.length data)) as Hu.
  set (ulen := uint32 (Z.of_nat (List.length data))) in *.
  induction fuel as [|fuel IH]; intros e He Hfuel.
  - cbn [getString_loop].
    replace (Z.to_nat (ulen - e)) with O by lia.
    cbn [firstn untilNUL List.length]. f_equal. lia.
  - cbn [getString_loop]. fold ulen.
    destruct (e <? ulen) eqn:Hlt.
    + apply Z.ltb_lt in Hlt.
      destruct (index_in_range data e ltac:(lia)) as (b & Hidx & Hnth).
      rewrite Hidx, (skipn_nth_error _ _ _ Hnth).
      replace (Z.to_nat (ulen - e)) with (S (Z.to_nat (ulen - (e + 1)))) by lia.
      cbn [firstn untilNUL].
      destruct (Byte.eqb b x00).
      * cbn [List.length]. f_equal. lia.
      * rewrite uint32_small by lia.
        rewrite IH by lia.
        replace (Z.to_nat (e + 1)) with (S (Z.to_nat e)) by lia.
        cbn [List.length]. f_equal. lia.
    + apply Z.ltb_ge in Hlt.
      replace (Z.to_nat (ulen - e)) with O by lia.
      cbn [firstn untilNUL List.length]. f_equal. lia.
Qed.

(** The iterations granted in [getString] suffice: the loop is left with
    its condition false. *)
Lemma getString_loop_exit (idx : Z) :
  0 <= idx ->
  exists end_,
    getString_loop
      (Z.to_nat (uint32 (Z.of_nat (List.length data)) - idx)) data idx
    = Returns end_ /\
    idx <= end_ /\
    (uint32 (Z.of_nat (List.length data)) <= end_ \/
     index data end_ = Returns x00).
Proof.
  intros Hidx.
  pose proof (uint32_len_bounds (List.length data)) as Hu.
  set (ulen := uint32 (Z.of_nat (List.length data))) in *.
  assert (Hgen : forall fuel e, 0 <= e -> ulen - e <= Z.of_nat fuel ->
            exists e', getString_loop fuel data e = Returns e' /\ e <= e' /\
                       (ulen <= e' \/ index data e' = Returns x00)).
  { induction fuel as [|fuel IH]; intros e He Hfuel; cbn [getString_loop];
      fold ulen.
    - exists e. repeat split; [lia | left; lia].
    - destruct (e <? ulen) eqn:Hlt.
      + apply Z.ltb_lt in Hlt.
        destruct (index_in_range data e ltac:(lia)) as (b & Hb & _).
        rewrite Hb. destruct (Byte.eqb b x00) eqn:Hnul.
        * apply Byte.byte_dec_bl in Hnul. subst b.
          exists e. repeat split; [lia | right; exact Hb].
        * rewrite uint32_small by lia.
          destruct (IH (e + 1) ltac:(lia) ltac:(lia)) as (e' & Hrun & Hle & Hexit).
          exists e'. repeat split; [exact Hrun | lia | exact Hexit].
      + apply Z.ltb_ge in Hlt.
        exists e. repeat split; [lia | left; lia]. }
  apply Hgen; lia.
Qed.

Lemma slice_in_range {A} (s : list A) (lo hi : Z) :
  0 <= lo <= hi -> hi <= Z.of_nat (List.length s) ->
  slice s lo hi = Returns (firstn (Z.to_nat (hi - lo)) (skipn (Z.to_nat lo) s)).
Proof.
  intros H1 H2. unfold slice.
  replace ((0 <=? lo) && (lo <=? hi) && (hi <=? Z.of_nat (List.length s)))
    with true; [reflexivity|].
  symmetry. rewrite !andb_true_iff, !Z.leb_le. lia.
Qed.

Lemma slice_beyond_capacity {A} (s : list A) (lo hi : Z) :
  Z.of_nat (List.length s) < hi ->
  slice s lo hi = Panics (SliceBoundsOutOfRange lo hi (Z.of_nat (List.length s))).
Proof.
  intros H. unfold slice.
  replace (hi <=? Z.of_nat (List.length s)) with false
    by (symmetry; apply Z.leb_gt; lia).
  rewrite andb_false_r. reflexivity.
Qed.

(** [getString] for an index within the table: the bytes from the index up
    to the first NUL, looked for below [uint32(len(data))] only. *)
Lemma getString_within (idx : Z) :
  0 <= idx <= Z.of_nat (List.length data) ->
  getString data idx =
    Returns
      (string_of_list_byte
         (untilNUL
            (firstn (Z.to_nat (uint32 (Z.of_nat (List.length data)) - idx))
               (skipn (Z.to_nat idx) data)))).
Proof.
  intros Hidx. unfold getString.
  rewrite getString_loop_run by lia.
  set (window := firstn _ (skipn (Z.to_nat idx) data)).
  assert (Hk : (List.length (untilNUL window)
                <= Nat.min (Z.to_nat (uint32 (Z.of_nat (List.length data)) - idx))
                     (List.length data - Z.to_nat idx))%nat).
  { pose proof (untilNUL_length window) as H.
    unfold window in H at 2. rewrite length_firstn, length_skipn in H.
    exact H. }
  rewrite slice_in_range by lia.
  replace (Z.to_nat (idx + Z.of_nat (List.length (untilNUL window)) - idx))
    with (List.length (untilNUL window)) by lia.
  rewrite <- (untilNUL_prefix window) at 2.
  unfold window at 3. rewrite firstn_firstn.
  do 2 f_equal. f_equal. lia.
Qed.

(** For a table shorter than 4 GiB the whole rest of the table is
    searched. *)
Lemma getString_whole (idx : Z) :
  Z.of_nat (List.length data) < 2 ^ 32 ->
  0 <= idx <= Z.of_nat (List.length data) ->
  getString data idx =
    Returns (string_of_list_byte (untilNUL (skipn (Z.to_nat idx) data))).
Proof.
  intros Hlen Hidx. rewrite getString_within by assumption.
  rewrite uint32_small by lia.
  rewrite firstn_all2; [reflexivity|].
  rewrite length_skipn. lia.
Qed.

(** An index beyond the table makes the slice expression panic. *)
Lemma getString_beyond (idx : Z) :
  Z.of_nat (List.length data) < idx ->
  getString data idx =
    Panics (SliceBoundsOutOfRange idx idx (Z.of_nat (List.length data))).
Proof.
  intros Hidx. unfold getString.
  pose proof (uint32_len_bounds (List.length data)) as Hu.
  replace (Z.to_nat (uint32 (Z.of_nat (List.length data)) - idx)) with O by lia.
  cbn [getString_loop].
  rewrite slice_beyond_capacity by lia. reflexivity.
Qed.

End GetString.

Lemma table4GiB_length : Z.of_nat (List.length table4GiB) = 2 ^ 32.
Proof.
  unfold table4GiB. rewrite repeat_length. apply Z2Nat.id. lia.
Qed.

Lemma table4GiB_head : exists tl, table4GiB = x61 :: tl.
Proof.
  unfold table4GiB.
  destruct (Z.to_nat (2 ^ 32)) as [|n] eqn:E; [lia|].
  exists (repeat x61 n). reflexivity.
Qed.

(** On a table of 2^32 bytes [uint32(len(data))] is 0 and nothing is
    scanned. *)
Lemma getString_table4GiB : getString table4GiB 0 = Returns EmptyString.
Proof.
  rewrite getString_within by (rewrite table4GiB_length; lia).
  rewrite table4GiB_length.
  replace (Z.to_nat (uint32 (2 ^ 32) - 0)) with O by (unfold uint32; rewrite Z.mod_same; lia).
  reflexivity.
Qed.

(** C2. An index beyond the length of the table is not resolved to the empty
    string: the slice expression [data[index:end]] panics. (An index equal
    to the length does give the empty string.) *)
Theorem getString_index_beyond_table_panics (data : list byte) (idx : Z) :
  Z.of_nat (List.length data) < idx ->
  getString data idx =
    Panics (SliceBoundsOutOfRange idx idx (Z.of_nat (List.length data))) /\
  getString data idx <> Returns EmptyString.
Proof.
  intros H. rewrite getString_beyond by assumption.
  split; [reflexivity | discriminate].
Qed.

Lemma getString_index_beyond_table_panics_witness :
  getString [x61; x62; x00] 5 = Panics (SliceBoundsOutOfRange 5 5 3) /\
  getString [x61; x62; x00] 5 <> Returns EmptyString.
Proof.
  apply (getString_index_beyond_table_panics [x61; x62; x00] 5).
  cbn. lia.
Defined.

(** The same panic in a whole run of [main] with [-jS]: the name index of a
    section lies beyond the string table. *)
Example main_jS_name_beyond_table :
  fst (main_jS badNameELF) = Panics (SliceBoundsOutOfRange 12 12 11).
Proof. reflexivity. Qed.

(** C5, as stated, fails twice: an index beyond the table panics instead of
    giving the (empty) text up to the end of the table, and on a table of
    2^32 bytes without NUL nothing is returned of the run that starts at
    index 0. *)
Lemma getString_scan_counterexample :
  ~ resolvesName [x61] 2 /\ ~ resolvesName table4GiB 0.
Proof.
  split; unfold resolvesName.
  - rewrite getString_beyond by (cbn; lia). discriminate.
  - rewrite getString_table4GiB.
    destruct table4GiB_head as (tl & ->).
    cbn. discriminate.
Qed.

(** C5, amended. For a table shorter than 2^32 bytes and an index not
    beyond its length, [getString] returns the text of the bytes from the
    index up to the next NUL or the end of the table; if no NUL follows the
    index the text runs to the end of the table. On the table
    "ab" NUL "cd" NUL: index 0 gives "ab", index 3 gives "cd", index 6 (the
    end) and index 2 (a NUL) give the empty string. *)
Theorem getString_scans_to_NUL_or_end :
  (forall (data : list byte) (idx : Z),
      Z.of_nat (List.length data) < 2 ^ 32 ->
      0 <= idx <= Z.of_nat (List.length data) ->
      resolvesName data idx /\
      (~ In x00 (skipn (Z.to_nat idx) data) ->
       getString data idx =
         Returns (string_of_list_byte (skipn (Z.to_nat idx) data)))) /\
  getString sampleTable 0 = Returns "ab"%string /\
  getString sampleTable 3 = Returns "cd"%string /\
  getString sampleTable 6 = Returns EmptyString /\
  getString sampleTable 2 = Returns EmptyString.
Proof.
  split; [|repeat split; reflexivity].
  intros data idx Hlen Hidx. unfold resolvesName.
  rewrite getString_whole by assumption.
  split; [reflexivity|].
  intros Hnot. rewrite untilNUL_no_NUL by assumption. reflexivity.
Qed.

Lemma getString_scans_to_NUL_or_end_witness :
  resolvesName sampleTable 3 /\
  getString [x61; x62; x00; x63; x64] 3 = Returns "cd"%string.
Proof.
  split.
  - apply (proj1 getString_scans_to_NUL_or_end sampleTable 3); cbn; lia.
  - apply (proj1 getString_scans_to_NUL_or_end [x61; x62; x00; x63; x64] 3);
      cbn; try lia.
    intros [H | [H | []]]; discriminate H.
Defined.

(** C10, as stated, fails on a table of 2^32 bytes: for index 0 the empty
    string is returned although the table starts with a byte that is not
    NUL. *)
Lemma getString_longest_run_counterexample :
  0 <= 0 <= Z.of_nat (List.length table4GiB) /\
  getString table4GiB 0 = Returns EmptyString /\
  ~ longestNULFreeRun table4GiB 0 (list_byte_of_string EmptyString).
Proof.
  split; [rewrite table4GiB_length; lia|].
  split; [apply getString_table4GiB|].
  intros (rest & Hsplit & _ & Hrest).
  destruct table4GiB_head as (tl & Htl).
  rewrite Htl in Hsplit. cbn in Hsplit.
  destruct Hrest as [-> | (r & ->)]; discriminate Hsplit.
Qed.

(** C10, amended. For a table shorter than 2^32 bytes and an index not
    beyond its length, [getString] returns a string without NUL that is
    exactly the longest run without NUL starting at the index; it is never
    longer than what the table holds from the index on. *)
Theorem getString_longest_NUL_free_run (data : list byte) (idx : Z) :
  Z.of_nat (List.length data) < 2 ^ 32 ->
  0 <= idx <= Z.of_nat (List.length data) ->
  exists name,
    getString data idx = Returns name /\
    ~ In x00 (list_byte_of_string name) /\
    longestNULFreeRun data idx (list_byte_of_string name) /\
    Z.of_nat (List.length (list_byte_of_string name))
      <= Z.of_nat (List.length data) - idx.
Proof.
  intros Hlen Hidx.
  eexists. split; [apply getString_whole; assumption|].
  rewrite list_byte_of_string_of_list_byte.
  destruct (untilNUL_split (skipn (Z.to_nat idx) data))
    as (rest & Hsplit & Hnot & Hrest).
  split; [exact Hnot|]. split.
  - exists rest. auto.
  - pose proof (untilNUL_length (skipn (Z.to_nat idx) data)) as Hle.
    rewrite length_skipn in Hle. lia.
Qed.

Lemma getString_longest_NUL_free_run_witness :
  exists name,
    getString sampleTable 3 = Returns name /\
    ~ In x00 (list_byte_of_string name) /\
    longestNULFreeRun sampleTable 3 (list_byte_of_string name) /\
    Z.of_nat (List.length (list_byte_of_string name))
      <= Z.of_nat (List.length sampleTable) - 3.
Proof.
  apply (getString_longest_NUL_free_run sampleTable 3); cbn; lia.
Defined.

(** ** Reading records from the source *)

Lemma bind_returns {A B} (m : M A) (k : A -> M B) (f f1 : File) (a : A) :
  m f = (Returns a, f1) -> bind m k f = k a f1.
Proof. intros H. unfold bind. rewrite H. reflexivity. Qed.

Lemma bind_panics {A B} (m : M A) (k : A -> M B) (f f1 : File) (p : panic) :
  m f = (Panics p, f1) -> bind m k f = (Panics p, f1).
Proof. intros H. unfold bind. rewrite H. reflexivity. Qed.

(** A sequence that returns has gone through both of its parts. *)
Lemma bind_inv {A B} (m : M A) (k : A -> M B) (f f' : File) (b : B) :
  bind m k f = (Returns b, f') ->
  exists a f1, m f = (Returns a, f1) /\ k a f1 = (Returns b, f').
Proof.
  unfold bind. destruct (m f) as [[a|p] f1]; intros H.
  - exists a, f1. split; [reflexivity | exact H].
  - discriminate H.
Qed.

Lemma lift_inv {A} (o : outcome A) (f f' : File) (a : A) :
  lift o f = (Returns a, f') -> o = Returns a /\ f' = f.
Proof.
  unfold lift. intros H. injection H as -> ->. split; reflexivity.
Qed.

(** Runs the first part of a sequence whose result [H] gives. *)
Ltac run_bind H := rewrite (bind_returns _ _ _ _ _ H).

(** Splits a sequence known to return into its first part, with result [a]
    by [Ha], and the rest, which stays in [H]. *)
Tactic Notation "invert_bind" hyp(H) "as" ident(a) ident(Ha) :=
  let f := fresh "f" in
  apply bind_inv in H as (a & f & Ha & H).

(** The same when the first part is lifted: the file is unchanged. *)
Tactic Notation "invert_lift" hyp(H) "as" ident(a) ident(Ha) :=
  let f := fresh "f" in
  let Hf := fresh "Hf" in
  apply bind_inv in H as (a & f & Ha & H);
  apply lift_inv in Ha as (Ha & Hf); subst f.

Lemma Seek_int64 (offset : Z) (f : File) :
  exists r, Seek (int64 offset) f = (Returns r, afterSeek offset f).
Proof.
  unfold Seek, afterSeek, seekTarget.
  destruct (int64 offset <? 0); eexists; reflexivity.
Qed.

Lemma remaining_length (f : File) :
  List.length (remaining f) = (List.length (content f) - N.to_nat (pos f))%nat.
Proof. unfold remaining. apply length_skipn. Qed.

Lemma binary_Read_fixed {T} `{BinaryData T} (data : T) (f : File) :
  dataSize data <> O ->
  exists err,
    binary_Read data f =
      (Returns (if (dataSize data <=? List.length (remaining f))%nat
                then decode (firstn (dataSize data) (remaining f))
                else data, err),
       afterRead (dataSize data) f).
Proof.
  intros Hn. unfold binary_Read, bind, afterRead.
  destruct (dataSize data <=? List.length (remaining f))%nat eqn:Hle.
  - apply Nat.leb_le in Hle.
    rewrite ReadFull_enough by assumption.
    rewrite Nat.min_l by assumption. eexists. reflexivity.
  - apply Nat.leb_gt in Hle.
    rewrite ReadFull_short by assumption.
    rewrite Nat.min_r by lia. eexists. reflexivity.
Qed.

(** Case analysis on every comparison of offsets in the goal. *)
Ltac split_leb :=
  repeat match goal with
         | |- context [(?a <=? ?b)%nat] => destruct (Nat.leb_spec a b)
         end.

(** After one more read the rest of the table is the table from the next
    record on; once a read has fallen short, all later ones do. *)
Lemma programHeaderAt_afterRead (f : File) (j : nat) :
  programHeaderAt (content f) (N.to_nat (pos (afterRead 56 f))) j
  = programHeaderAt (content f) (N.to_nat (pos f)) (S j).
Proof.
  unfold programHeaderAt, afterRead. cbn [pos].
  rewrite remaining_length.
  set (p := N.to_nat (pos f)). set (L := List.length (content f)).
  replace (N.to_nat (pos f + N.of_nat (Nat.min 56 (L - p))))
    with (p + Nat.min 56 (L - p))%nat by lia.
  split_leb; try reflexivity; try lia.
  f_equal. f_equal. lia.
Qed.

Lemma sectionHeaderAt_afterRead (f : File) (j : nat) :
  sectionHeaderAt (content f) (N.to_nat (pos (afterRead 64 f))) j
  = sectionHeaderAt (content f) (N.to_nat (pos f)) (S j).
Proof.
  unfold sectionHeaderAt, afterRead. cbn [pos].
  rewrite remaining_length.
  set (p := N.to_nat (pos f)). set (L := List.length (content f)).
  replace (N.to_nat (pos f + N.of_nat (Nat.min 64 (L - p))))
    with (p + Nat.min 64 (L - p))%nat by lia.
  split_leb; try reflexivity; try lia.
  f_equal. f_equal. lia.
Qed.

(** What one [binary.Read] into a zero record leaves in it. *)
Lemma programHeaderAt_first (f : File) :
  (if (56 <=? List.length (remaining f))%nat
   then decode (firstn 56 (remaining f))
   else zeroPhdr)
  = programHeaderAt (content f) (N.to_nat (pos f)) 0.
Proof.
  unfold programHeaderAt. rewrite remaining_length.
  unfold bytesAt, remaining.
  set (p := N.to_nat (pos f)). set (L := List.length (content f)).
  replace (p + 56 * 0)%nat with p by lia.
  split_leb; try reflexivity; lia.
Qed.

Lemma sectionHeaderAt_first (f : File) :
  (if (64 <=? List.length (remaining f))%nat
   then decode (firstn 64 (remaining f))
   else zeroShdr)
  = sectionHeaderAt (content f) (N.to_nat (pos f)) 0.
Proof.
  unfold sectionHeaderAt. rewrite remaining_length.
  unfold bytesAt, remaining.
  set (p := N.to_nat (pos f)). set (L := List.length (content f)).
  replace (p + 64 * 0)%nat with p by lia.
  split_leb; try reflexivity; lia.
Qed.

(** The loop shared by [JSONOutputProgramHeaders] and
    [PrintProgramHeaders]. *)
Lemma programHeader_loop (n : nat) :
  forall (i : Z) (acc : list Elf64Phdr) (f : File),
  exists f',
    forRange n i
      (fun _ phdrs =>
         let phdr := zeroPhdr in
         ' (phdr, _) <- binary_Read phdr ;;
         ret (phdrs ++ [phdr]))%go
      acc f
    = (Returns
         (acc ++ map (programHeaderAt (content f) (N.to_nat (pos f))) (seq 0 n)),
       f') /\
    content f' = content f.
Proof.
  induction n as [|n IH]; intros i acc f.
  - exists f. cbn [forRange seq map]. rewrite app_nil_r. split; reflexivity.
  - destruct (binary_Read_fixed zeroPhdr f) as (err & Hread);
      [cbn; discriminate|].
    change (dataSize zeroPhdr) with 56%nat in Hread.
    rewrite programHeaderAt_first in Hread.
    destruct (IH (i + 1)
                (acc ++ [programHeaderAt (content f) (N.to_nat (pos f)) 0])
                (afterRead 56 f))
      as (f' & Hrun & Hcontent).
    exists f'. split; [|exact Hcontent].
    cbn [forRange]. unfold bind at 1. cbv zeta. unfold bind at 1.
    rewrite Hread. cbv zeta in Hrun. unfold ret at 1.
    rewrite Hrun. rewrite <- app_assoc.
    change (seq 0 (S n)) with (0%nat :: seq 1 n).
    rewrite <- seq_shift.
    cbn [map app]. rewrite map_map.
    apply (f_equal (fun l => (Returns (acc ++ _ :: l), f'))).
    apply map_ext. intros j.
    change (content (afterRead 56 f)) with (content f).
    apply programHeaderAt_afterRead.
Qed.

(** The program headers as both functions produce them, whatever the
    length of the source: exactly [Phnum] records in table order from the
    position the seek reached; a record whose 56 bytes all lie within the
    source is decoded from them, every other record is the zero record. *)
Lemma program_headers_run (ehdr : Elf64Ehdr) (f : File) :
  exists f',
    JSONOutputProgramHeaders ehdr f
    = (Returns (map (programHeaderAt (content f)
                       (N.to_nat (seekTarget f (Ehdr_Phoff ehdr))))
                    (seq 0 (Z.to_nat (Ehdr_Phnum ehdr)))), f') /\
    PrintProgramHeaders ehdr f
    = (Returns (map (programHeaderAt (content f)
                       (N.to_nat (seekTarget f (Ehdr_Phoff ehdr))))
                    (seq 0 (Z.to_nat (Ehdr_Phnum ehdr)))), f').
Proof.
  destruct (Seek_int64 (Ehdr_Phoff ehdr) f) as (r & Hseek).
  destruct (programHeader_loop (Z.to_nat (Ehdr_Phnum ehdr)) 0 []
              (afterSeek (Ehdr_Phoff ehdr) f)) as (f' & Hloop & _).
  exists f'. split.
  - unfold JSONOutputProgramHeaders.
    run_bind Hseek.
    run_bind Hloop. reflexivity.
  - unfold PrintProgramHeaders.
    run_bind Hseek. exact Hloop.
Qed.

Lemma seekTarget_in_range (f : File) (offset : Z) :
  0 <= offset < 2 ^ 63 -> N.to_nat (seekTarget f offset) = Z.to_nat offset.
Proof.
  intros H. unfold seekTarget, int64.
  destruct (Z.ltb_spec offset (2 ^ 63)); [|lia].
  destruct (Z.ltb_spec offset 0); lia.
Qed.

(** C3. On a source shorter than [Phoff + Phnum * 56] the decoding of the
    program headers does not fail as the claim requires: the error of
    [binary.Read] is discarded, and [JSONOutputProgramHeaders] and
    [PrintProgramHeaders] still produce [Phnum] records, the last of which
    (at least) is the zero record rather than data of the file. *)
Theorem program_headers_truncated_zero_filled (ehdr : Elf64Ehdr) (f : File) :
  0 <= Ehdr_Phoff ehdr < 2 ^ 63 ->
  0 < Ehdr_Phnum ehdr ->
  Z.of_nat (List.length (content f))
    < Ehdr_Phoff ehdr + Ehdr_Phnum ehdr * 56 ->
  exists phdrs f',
    JSONOutputProgramHeaders ehdr f = (Returns phdrs, f') /\
    PrintProgramHeaders ehdr f = (Returns phdrs, f') /\
    Z.of_nat (List.length phdrs) = Ehdr_Phnum ehdr /\
    nth_error phdrs (Z.to_nat (Ehdr_Phnum ehdr - 1)) = Some zeroPhdr.
Proof.
  intros Hoff Hnum Hshort.
  destruct (program_headers_run ehdr f) as (f' & Hjson & Hprint).
  eexists. exists f'.
  split; [exact Hjson|]. split; [exact Hprint|]. split.
  - rewrite length_map, length_seq. lia.
  - rewrite nth_error_map, nth_error_seq.
    destruct (Nat.ltb_spec (Z.to_nat (Ehdr_Phnum ehdr - 1))
                (Z.to_nat (Ehdr_Phnum ehdr))) as [_|Hge]; [|lia].
    cbn [option_map]. f_equal.
    unfold programHeaderAt. rewrite seekTarget_in_range by assumption.
    destruct (Nat.leb_spec
                (Z.to_nat (Ehdr_Phoff ehdr)
                 + 56 * (0 + Z.to_nat (Ehdr_Phnum ehdr - 1) + 1))
                (List.length (content f))) as [Hle|_]; [lia | reflexivity].
Qed.

(** On [truncatedProgramELF], whose header declares one program header at
    offset 64 and which ends 10 bytes later, the result is one zero
    record. *)
Lemma program_headers_truncated_zero_filled_witness :
  fst (main_jl truncatedProgramELF) = Returns (Some [zeroPhdr]) /\
  exists phdrs f',
    JSONOutputProgramHeaders (headerLayout truncatedProgramELF)
      (openFile truncatedProgramELF) = (Returns phdrs, f') /\
    PrintProgramHeaders (headerLayout truncatedProgramELF)
      (openFile truncatedProgramELF) = (Returns phdrs, f') /\
    Z.of_nat (List.length phdrs) = 1 /\
    nth_error phdrs (Z.to_nat (1 - 1)) = Some zeroPhdr.
Proof.
  split; [reflexivity|].
  apply (program_headers_truncated_zero_filled
           (headerLayout truncatedProgramELF) (openFile truncatedProgramELF));
    cbn; lia.
Defined.

(** ** Loading the string table: [dumpStringTable] *)

Lemma dumpStringTable_run (offset size : Z) (f : File) :
  dumpStringTable offset size f =
    if size <=? maxAlloc
    then
      let n := Z.to_nat size in
      let f1 := afterSeek offset f in
      (Returns (if (n <=? List.length (remaining f1))%nat
                then firstn n (remaining f1)
                else repeat x00 n),
       match n with O => f1 | S _ => afterRead n f1 end)
    else (Panics MakesliceLenOutOfRange, afterSeek offset f).
Proof.
  unfold dumpStringTable.
  destruct (Seek_int64 offset f) as (r & Hseek).
  unfold bind at 1. rewrite Hseek.
  unfold bind at 1. unfold lift, make_bytes.
  destruct (size <=? maxAlloc); [|reflexivity].
  cbv zeta.
  destruct (Z.to_nat size) as [|n] eqn:Hn.
  - reflexivity.
  - destruct (binary_Read_fixed (repeat x00 (S n)) (afterSeek offset f))
      as (err & Hread).
    + cbn [dataSize BinaryData_bytes]. rewrite repeat_length. discriminate.
    + cbn [dataSize decode BinaryData_bytes] in Hread.
      rewrite repeat_length in Hread.
      unfold bind. rewrite Hread. reflexivity.
Qed.

(** For an offset below 2^63 and a size the run time can allocate,
    [dumpStringTable] seeks to the offset and returns a buffer of exactly
    [size] bytes: the [size] bytes of the source at the offset when the
    source holds that many there, and [size] zero bytes when it holds
    fewer. It does not fail in either case. *)
Lemma dumpStringTable_exact_size (offset size : Z) (f : File) :
  0 <= offset < 2 ^ 63 ->
  0 <= size <= maxAlloc ->
  exists buf f' rest,
    dumpStringTable offset size f = (Returns buf, f') /\
    trace f' = trace f ++ OpSeek offset :: rest /\
    Z.of_nat (List.length buf) = size /\
    buf = if offset + size <=? Z.of_nat (List.length (content f))
          then bytesAt (Z.to_nat offset) (Z.to_nat size) (content f)
          else repeat x00 (Z.to_nat size).
Proof.
  intros Hoff Hsize.
  rewrite dumpStringTable_run.
  replace (size <=? maxAlloc) with true by (symmetry; apply Z.leb_le; lia).
  cbv zeta.
  assert (Hint : int64 offset = offset).
  { unfold int64. replace (offset <? 2 ^ 63) with true; [reflexivity|].
    symmetry. apply Z.ltb_lt. lia. }
  assert (Hseek : afterSeek offset f
                  = mkFile (content f) (Z.to_N offset) (trace f ++ [OpSeek offset])).
  { unfold afterSeek, seekTarget. rewrite Hint.
    replace (offset <? 0) with false; [reflexivity|].
    symmetry. apply Z.ltb_ge. lia. }
  rewrite Hseek. unfold remaining. cbn [pos content trace].
  replace (N.to_nat (Z.to_N offset)) with (Z.to_nat offset) by lia.
  remember (Z.to_nat offset) as o eqn:Ho.
  remember (Z.to_nat size) as n eqn:Hn.
  remember (List.length (content f)) as L eqn:HL.
  do 2 eexists.
  exists (match n with O => [] | S _ => [OpRead n] end).
  split; [reflexivity|]. split.
  { destruct n; cbn [trace afterRead]; [reflexivity|].
    rewrite <- app_assoc. reflexivity. }
  assert (Hlen : List.length (skipn o (content f)) = (L - o)%nat)
    by (rewrite HL; apply length_skipn).
  rewrite Hlen.
  destruct (Nat.leb_spec n (L - o)) as [H1|H1];
    destruct (Z.leb_spec (offset + size) (Z.of_nat L)) as [H2|H2].
  - split; [rewrite length_firstn, Hlen; lia | reflexivity].
  - destruct n; [|lia]. split; [cbn; lia | reflexivity].
  - lia.
  - split; [rewrite repeat_length; lia | reflexivity].
Qed.

(** An offset of 2^63 or more is not sought at all: the bytes at the
    current position are returned. *)
Example dumpStringTable_refused_seek :
  fst (dumpStringTable (2 ^ 63) 2 (openFile sampleTable))
  = Returns [x61; x62].
Proof. reflexivity. Qed.

(** C7. When the source holds fewer than [size] bytes at the offset,
    [dumpStringTable] does not fail as the claim requires: it seeks to the
    offset, discards the error of [binary.Read] and returns the buffer of
    [size] zero bytes that [make] gave it. (With enough bytes at the offset
    it does return exactly those, see [dumpStringTable_exact_size].) *)
Theorem dumpStringTable_truncated_zero_filled (offset size : Z) (f : File) :
  0 <= offset < 2 ^ 63 ->
  0 < size <= maxAlloc ->
  Z.of_nat (List.length (content f)) < offset + size ->
  exists f' rest,
    dumpStringTable offset size f = (Returns (repeat x00 (Z.to_nat size)), f') /\
    trace f' = trace f ++ OpSeek offset :: rest.
Proof.
  intros Hoff Hsize Hshort.
  destruct (dumpStringTable_exact_size offset size f Hoff ltac:(lia))
    as (buf & f' & rest & Hrun & Htrace & _ & Hbuf).
  destruct (Z.leb_spec (offset + size) (Z.of_nat (List.length (content f))))
    as [Hle|_]; [lia|].
  subst buf. exists f', rest. split; assumption.
Qed.

Lemma dumpStringTable_truncated_zero_filled_witness :
  exists f' rest,
    dumpStringTable 1 7 (openFile sampleTable)
    = (Returns (repeat x00 (Z.to_nat 7)), f') /\
    trace f' = trace (openFile sampleTable) ++ OpSeek 1 :: rest.
Proof.
  apply (dumpStringTable_truncated_zero_filled 1 7 (openFile sampleTable));
    unfold maxAlloc; cbn; lia.
Defined.

(** ** Binding section names: [MakeSectionHeaderWithName] *)

Lemma update_length {A} (s : list A) (i : nat) (v : A) :
  List.length (update s i v) = List.length s.
Proof.
  revert i. induction s as [|a s IH]; intros [|i]; cbn [update List.length];
    try reflexivity.
  rewrite IH. reflexivity.
Qed.

Lemma nth_error_update_eq {A} (s : list A) (i : nat) (v : A) :
  (i < List.length s)%nat -> nth_error (update s i v) i = Some v.
Proof.
  revert i. induction s as [|a s IH]; intros [|i] H; cbn [List.length] in H;
    cbn [update nth_error]; try lia; try reflexivity.
  apply IH. lia.
Qed.

Lemma nth_error_update_neq {A} (s : list A) (i j : nat) (v : A) :
  i <> j -> nth_error (update s i v) j = nth_error s j.
Proof.
  revert i j. induction s as [|a s IH]; intros [|i] [|j] H;
    cbn [update nth_error]; try reflexivity; try congruence.
  apply IH. congruence.
Qed.

Lemma index_not_in_range {A} (s : list A) (i : Z) :
  i < 0 \/ Z.of_nat (List.length s) <= i ->
  index s i = Panics (IndexOutOfRange i (Z.of_nat (List.length s))).
Proof.
  intros H. unfold index.
  replace ((0 <=? i) && (i <? Z.of_nat (List.length s))) with false;
    [reflexivity|].
  symmetry. apply andb_false_iff.
  destruct H; [left; apply Z.leb_gt | right; apply Z.ltb_ge]; lia.
Qed.

(** The first loop never panics and keeps the length of [shdrs]: every
    [shdrs[i]] it fills exists. *)
Lemma readSectionHeaders_loop (n : nat) :
  forall (i : Z) (shdrs : list Elf64Shdr) (f : File),
    0 <= i ->
    i + Z.of_nat n <= Z.of_nat (List.length shdrs) ->
    exists shdrs' f',
      forRange n i
        (fun i shdrs =>
           cur <- lift (index shdrs i) ;;
           ' (new, _) <- binary_Read cur ;;
           ret (update shdrs (Z.to_nat i) new))%go
        shdrs f
      = (Returns shdrs', f') /\
      List.length shdrs' = List.length shdrs /\
      content f' = content f /\
      exists reads, trace f' = trace f ++ repeat (OpRead 64) reads.
Proof.
  induction n as [|n IH]; intros i shdrs f Hi Hn.
  - exists shdrs, f. cbn [forRange]. repeat split.
    exists O. cbn [repeat]. rewrite app_nil_r. reflexivity.
  - destruct (index_in_range shdrs i ltac:(lia)) as (cur & Hidx & _).
    destruct (binary_Read_fixed cur f) as (err & Hread); [cbn; discriminate|].
    cbn [dataSize BinaryData_Shdr] in Hread.
    set (new := if (64 <=? List.length (remaining f))%nat
                then decode (firstn 64 (remaining f)) else cur) in Hread.
    destruct (IH (i + 1) (update shdrs (Z.to_nat i) new) (afterRead 64 f))
      as (shdrs' & f' & Hrun & Hlen & Hcontent & reads & Htrace);
      [lia | rewrite update_length; lia |].
    exists shdrs', f'. split; [|split; [|split]].
    + cbn [forRange].
      cbv beta iota zeta delta [bind lift ret] in Hrun |- *.
      rewrite Hidx.
      cbv beta iota zeta delta [bind lift ret] in Hread.
      rewrite Hread. exact Hrun.
    + rewrite Hlen. apply update_length.
    + exact Hcontent.
    + exists (S reads). rewrite Htrace. cbn [afterRead trace repeat].
      rewrite <- app_assoc. reflexivity.
Qed.

(** [loadSectionHeaders] never panics and returns [Shnum] raw headers. *)
Lemma loadSectionHeaders_returns (ehdr : Elf64Ehdr) (f : File) :
  exists shdrs f',
    loadSectionHeaders ehdr f = (Returns shdrs, f') /\
    List.length shdrs = Z.to_nat (Ehdr_Shnum ehdr) /\
    exists reads,
      trace f' = trace f ++ OpSeek (int64 (Ehdr_Shoff ehdr))
                         :: repeat (OpRead 64) reads.
Proof.
  destruct (Seek_int64 (Ehdr_Shoff ehdr) f) as (r & Hseek).
  destruct (readSectionHeaders_loop (Z.to_nat (Ehdr_Shnum ehdr)) 0
              (repeat zeroShdr (Z.to_nat (Ehdr_Shnum ehdr)))
              (afterSeek (Ehdr_Shoff ehdr) f))
    as (shdrs & f' & Hrun & Hlen & _ & reads & Htrace);
    [lia | rewrite repeat_length; lia |].
  exists shdrs, f'. split; [|split].
  - unfold loadSectionHeaders.
    run_bind Hseek. exact Hrun.
  - rewrite Hlen. apply repeat_length.
  - exists reads. rewrite Htrace. cbn [afterSeek trace].
    rewrite <- app_assoc. reflexivity.
Qed.

Lemma firstn_update {A} (s : list A) (i : nat) (v : A) :
  (i < List.length s)%nat ->
  firstn (S i) (update s i v) = firstn i s ++ [v].
Proof.
  revert i. induction s as [|a s IH]; intros [|i] H; cbn [List.length] in H;
    try lia.
  - reflexivity.
  - cbn [update]. rewrite firstn_cons, IH by lia. reflexivity.
Qed.

(** What the first loop leaves in [shdrs], whatever the length of the
    source: entry [i] is decoded from the 64 bytes of record [i] when they all
    lie within the source, and stays the zero record otherwise. *)
Lemma readSectionHeaders_run (n : nat) :
  forall (i : Z) (shdrs : list Elf64Shdr) (f : File),
    0 <= i ->
    (Z.to_nat i + n)%nat = List.length shdrs ->
    (forall j : nat,
        (Z.to_nat i <= j < List.length shdrs)%nat ->
        nth_error shdrs j = Some zeroShdr) ->
    exists f',
      forRange n i
        (fun i shdrs =>
           cur <- lift (index shdrs i) ;;
           ' (new, _) <- binary_Read cur ;;
           ret (update shdrs (Z.to_nat i) new))%go
        shdrs f
      = (Returns
           (firstn (Z.to_nat i) shdrs
            ++ map (sectionHeaderAt (content f) (N.to_nat (pos f))) (seq 0 n)),
         f') /\
      content f' = content f.
Proof.
  induction n as [|n IH]; intros i shdrs f Hi Hlen Hzero.
  - exists f. cbn [forRange seq map]. rewrite app_nil_r.
    rewrite firstn_all2 by lia. split; reflexivity.
  - destruct (index_in_range shdrs i ltac:(lia)) as (cur & Hidx & Hnth).
    rewrite Hzero in Hnth by lia. injection Hnth as <-.
    destruct (binary_Read_fixed zeroShdr f) as (err & Hread);
      [cbn; discriminate|].
    change (dataSize zeroShdr) with 64%nat in Hread.
    rewrite sectionHeaderAt_first in Hread.
    set (new := sectionHeaderAt (content f) (N.to_nat (pos f)) 0) in *.
    destruct (IH (i + 1) (update shdrs (Z.to_nat i) new) (afterRead 64 f))
      as (f' & Hrun & Hcontent).
    { lia. }
    { rewrite update_length. lia. }
    { intros j Hj. rewrite update_length in Hj.
      rewrite nth_error_update_neq by lia. apply Hzero. lia. }
    exists f'. split; [|exact Hcontent].
    cbn [forRange].
    cbv beta iota zeta delta [bind lift ret] in Hrun, Hread |- *.
    rewrite Hidx, Hread, Hrun.
    replace (Z.to_nat (i + 1)) with (S (Z.to_nat i)) by lia.
    rewrite firstn_update by lia. rewrite <- app_assoc.
    change (seq 0 (S n)) with (0%nat :: seq 1 n).
    rewrite <- seq_shift.
    cbn [map app]. rewrite map_map.
    apply (f_equal (fun l => (Returns (firstn (Z.to_nat i) shdrs ++ _ :: l), f'))).
    apply map_ext. intros j.
    change (content (afterRead 64 f)) with (content f).
    apply sectionHeaderAt_afterRead.
Qed.

(** [loadSectionHeaders] decodes the [Shnum] records of the section-header
    table from the position its seek reached. *)
Lemma loadSectionHeaders_run (ehdr : Elf64Ehdr) (f : File) :
  exists f',
    loadSectionHeaders ehdr f
    = (Returns (map (sectionHeaderAt (content f)
                       (N.to_nat (seekTarget f (Ehdr_Shoff ehdr))))
                    (seq 0 (Z.to_nat (Ehdr_Shnum ehdr)))), f').
Proof.
  destruct (Seek_int64 (Ehdr_Shoff ehdr) f) as (r & Hseek).
  destruct (readSectionHeaders_run (Z.to_nat (Ehdr_Shnum ehdr)) 0
              (repeat zeroShdr (Z.to_nat (Ehdr_Shnum ehdr)))
              (afterSeek (Ehdr_Shoff ehdr) f))
    as (f' & Hrun & _).
  { lia. }
  { rewrite repeat_length. reflexivity. }
  { intros j Hj. rewrite repeat_length in Hj. apply nth_error_repeat. lia. }
  exists f'. unfold loadSectionHeaders.
  run_bind Hseek. exact Hrun.
Qed.

(** C1. When the string-table index of the header is not below the
    section-header count, [MakeSectionHeaderWithName] fails: indexing
    [shdrs] with [ehdr.Shstrndx] panics with "index out of range", which is
    the form the InvalidStringTableIndex fault takes in the code. No
    sequence of resolved headers is returned, not even a partial one. *)
Theorem MakeSectionHeaderWithName_invalid_string_table_index
    (ehdr : Elf64Ehdr) (f : File) :
  Ehdr_Shnum ehdr <= Ehdr_Shstrndx ehdr ->
  exists f',
    MakeSectionHeaderWithName ehdr f
    = (Panics (IndexOutOfRange (Ehdr_Shstrndx ehdr)
                               (Z.max 0 (Ehdr_Shnum ehdr))), f') /\
    forall shdrwns, fst (MakeSectionHeaderWithName ehdr f) <> Returns shdrwns.
Proof.
  intros Hndx.
  destruct (loadSectionHeaders_returns ehdr f)
    as (shdrs & f' & Hload & Hlen & _).
  assert (Hrun : MakeSectionHeaderWithName ehdr f
                 = (Panics (IndexOutOfRange (Ehdr_Shstrndx ehdr)
                                            (Z.max 0 (Ehdr_Shnum ehdr))), f')).
  { unfold MakeSectionHeaderWithName.
    run_bind Hload. cbv zeta.
    apply bind_panics. unfold lift.
    rewrite index_not_in_range by lia.
    rewrite Hlen. do 3 f_equal. lia. }
  exists f'. split; [exact Hrun|].
  intros shdrwns. rewrite Hrun. cbn [fst]. discriminate.
Qed.

Lemma MakeSectionHeaderWithName_invalid_string_table_index_witness :
  exists f',
    MakeSectionHeaderWithName badIndexHeader (openFile twoSectionELF)
    = (Panics (IndexOutOfRange 5 (Z.max 0 2)), f') /\
    forall shdrwns,
      fst (MakeSectionHeaderWithName badIndexHeader (openFile twoSectionELF))
      <> Returns shdrwns.
Proof.
  apply (MakeSectionHeaderWithName_invalid_string_table_index
           badIndexHeader (openFile twoSectionELF)).
  cbn. lia.
Defined.




Lemma index_returns_inv {A} (s : list A) (i : Z) (a : A) :
  index s i = Returns a ->
  0 <= i < Z.of_nat (List.length s) /\ nth_error s (Z.to_nat i) = Some a.
Proof.
  unfold index.
  destruct (Z.leb_spec 0 i); destruct (Z.ltb_spec i (Z.of_nat (List.length s)));
    cbn [andb]; try discriminate.
  destruct (nth_error s (Z.to_nat i)); [|discriminate].
  intros Heq. injection Heq as ->. split; [lia | reflexivity].
Qed.

(** The second loop, when it returns, has left the file alone, kept the
    length of [shdrwns], filled each entry it visited from the raw header
    at the same index, and left the other entries as they were. *)
Lemma bindNames_loop (stringTable : list byte) (shdrs : list Elf64Shdr)
    (n : nat) :
  forall (i : Z) (acc res : list Elf64ShdrWithName) (f f' : File),
    0 <= i ->
    forRange n i
      (fun i shdrwns =>
         shdr <- lift (index shdrs i) ;;
         sectionName <- lift (getString stringTable (Shdr_Name shdr)) ;;
         lift (index shdrwns i) ;;;
         ret (update shdrwns (Z.to_nat i)
                {| Shwn_Name := sectionName;
                   Shwn_Type := Shdr_Type shdr;
                   Shwn_Flags := Shdr_Flags shdr;
                   Shwn_Addr := Shdr_Addr shdr;
                   Shwn_Offset := Shdr_Offset shdr;
                   Shwn_Size := Shdr_Size shdr;
                   Shwn_Link := Shdr_Link shdr;
                   Shwn_Info := Shdr_Info shdr;
                   Shwn_Addralign := Shdr_Addralign shdr;
                   Shwn_Entsize := Shdr_Entsize shdr |}))%go
      acc f
    = (Returns res, f') ->
    List.length res = List.length acc /\
    f' = f /\
    (forall j : nat,
        (j < Z.to_nat i \/ Z.to_nat i + n <= j)%nat ->
        nth_error res j = nth_error acc j) /\
    (forall j : nat,
        (Z.to_nat i <= j < Z.to_nat i + n)%nat ->
        exists sw sh,
          nth_error res j = Some sw /\
          nth_error shdrs j = Some sh /\
          getString stringTable (Shdr_Name sh) = Returns (Shwn_Name sw) /\
          resolvedFields sw = rawFields sh).
Proof.
  induction n as [|n IH]; intros i acc res f f' Hi Hrun.
  - cbn [forRange] in Hrun. unfold ret in Hrun. injection Hrun as -> ->.
    repeat split; intros; lia.
  - cbn [forRange] in Hrun.
    apply bind_inv in Hrun as (acc1 & f1 & Hbody & Hrest).
    cbv beta in Hbody.
    invert_lift Hbody as sh Hsh.
    invert_lift Hbody as name Hname.
    invert_lift Hbody as old Hold.
    unfold ret in Hbody. injection Hbody as <- <-.
    apply index_returns_inv in Hsh as (Hsh_range & Hsh).
    apply index_returns_inv in Hold as (Hold_range & _).
    apply IH in Hrest as (Hlen & Hfile & Hout & Hin); [|lia].
    rewrite update_length in Hlen.
    replace (Z.to_nat (i + 1)) with (S (Z.to_nat i)) in Hout, Hin by lia.
    split; [exact Hlen|]. split; [exact Hfile|]. split.
    + intros j Hj. rewrite Hout by lia.
      apply nth_error_update_neq. lia.
    + intros j Hj.
      destruct (Nat.eq_dec j (Z.to_nat i)) as [->|Hne].
      * rewrite Hout by lia.
        rewrite nth_error_update_eq by lia.
        eexists. exists sh. repeat split; [exact Hsh | exact Hname].
      * apply Hin. lia.
Qed.

(** C6. When [MakeSectionHeaderWithName] returns, it returns one resolved
    header for each of the [Shnum] raw headers that its first loop decoded
    from the section-header table, in the same (table) order: the type,
    flags, address, offset, size, link, info, alignment and entry size of
    the i-th resolved header are those of the i-th raw header. *)
Theorem MakeSectionHeaderWithName_preserves_order_and_fields
    (ehdr : Elf64Ehdr) (f f' : File) (shdrwns : list Elf64ShdrWithName) :
  MakeSectionHeaderWithName ehdr f = (Returns shdrwns, f') ->
  exists shdrs f1,
    loadSectionHeaders ehdr f = (Returns shdrs, f1) /\
    shdrs = map (sectionHeaderAt (content f)
                   (N.to_nat (seekTarget f (Ehdr_Shoff ehdr))))
                (seq 0 (Z.to_nat (Ehdr_Shnum ehdr))) /\
    List.length shdrs = Z.to_nat (Ehdr_Shnum ehdr) /\
    List.length shdrwns = Z.to_nat (Ehdr_Shnum ehdr) /\
    map resolvedFields shdrwns = map rawFields shdrs /\
    forall i : nat,
      (i < Z.to_nat (Ehdr_Shnum ehdr))%nat ->
      exists sw sh,
        nth_error shdrwns i = Some sw /\
        nth_error shdrs i = Some sh /\
        resolvedFields sw = rawFields sh.
Proof.
  intros Hrun. unfold MakeSectionHeaderWithName in Hrun.
  apply bind_inv in Hrun as (shdrs & f1 & Hload & Hrun).
  cbv zeta in Hrun.
  invert_lift Hrun as strOffset HstrOffset.
  invert_lift Hrun as strSize HstrSize.
  invert_bind Hrun as stringTable Hdump.
  invert_bind Hrun as res Hbind.
  unfold ret in Hrun. injection Hrun as -> ->.
  destruct (loadSectionHeaders_returns ehdr f)
    as (shdrs0 & fl & Hload0 & Hlen & _).
  rewrite Hload in Hload0. injection Hload0 as <- <-.
  unfold bindNames in Hbind.
  apply bindNames_loop in Hbind as (Hreslen & _ & _ & Hin); [|lia].
  rewrite repeat_length in Hreslen.
  assert (Hpoint : forall i : nat,
             (i < Z.to_nat (Ehdr_Shnum ehdr))%nat ->
             exists sw sh,
               nth_error shdrwns i = Some sw /\
               nth_error shdrs i = Some sh /\
               resolvedFields sw = rawFields sh).
  { intros i Hi.
    destruct (Hin i ltac:(cbn; lia)) as (sw & sh & Hsw & Hsh & _ & Hfields).
    exists sw, sh. auto. }
  assert (Htable : shdrs
                   = map (sectionHeaderAt (content f)
                            (N.to_nat (seekTarget f (Ehdr_Shoff ehdr))))
                         (seq 0 (Z.to_nat (Ehdr_Shnum ehdr)))).
  { destruct (loadSectionHeaders_run ehdr f) as (f2 & Hload2).
    rewrite Hload in Hload2. injection Hload2 as -> _. reflexivity. }
  exists shdrs, f1. repeat split; try assumption.
  apply nth_error_ext. intros i. rewrite !nth_error_map.
  destruct (Nat.lt_ge_cases i (Z.to_nat (Ehdr_Shnum ehdr))) as [Hi|Hi].
  - destruct (Hpoint i Hi) as (sw & sh & -> & -> & Hfields).
    cbn [option_map]. rewrite Hfields. reflexivity.
  - replace (nth_error shdrwns i) with (@None Elf64ShdrWithName)
      by (symmetry; apply nth_error_None; lia).
    replace (nth_error shdrs i) with (@None Elf64Shdr)
      by (symmetry; apply nth_error_None; lia).
    reflexivity.
Qed.

(** A whole run of [main] with [-jS] on the well-formed sample. *)
Example main_jS_twoSectionELF :
  fst (main_jS twoSectionELF) = Returns (Some twoSectionNames).
Proof. reflexivity. Qed.

Lemma MakeSectionHeaderWithName_preserves_order_and_fields_witness :
  exists shdrs f1,
    loadSectionHeaders (headerLayout twoSectionELF) (openFile twoSectionELF)
      = (Returns shdrs, f1) /\
    shdrs = map (sectionHeaderAt twoSectionELF 75) (seq 0 2) /\
    List.length shdrs = 2%nat /\
    List.length twoSectionNames = 2%nat /\
    map resolvedFields twoSectionNames = map rawFields shdrs /\
    forall i : nat,
      (i < 2)%nat ->
      exists sw sh,
        nth_error twoSectionNames i = Some sw /\
        nth_error shdrs i = Some sh /\
        resolvedFields sw = rawFields sh.
Proof.
  apply (MakeSectionHeaderWithName_preserves_order_and_fields
           (headerLayout twoSectionELF) (openFile twoSectionELF)
           (snd (MakeSectionHeaderWithName (headerLayout twoSectionELF)
                   (openFile twoSectionELF)))
           twoSectionNames).
  vm_compute. reflexivity.
Defined.

(** * Further properties of [main.go] *)

(** ** The layout of the records *)

Lemma decodePhdr_layout (buf : list byte) :
  fst (decodePhdr buf) = programLayout buf.
Proof.
  cbv beta iota delta [decodePhdr dbind d_uint dret fst].
  unfold programLayout, bytesAt.
  rewrite !skipn_skipn. reflexivity.
Qed.

Lemma decodeShdr_layout (buf : list byte) :
  fst (decodeShdr buf) = sectionLayout buf.
Proof.
  cbv beta iota delta [decodeShdr dbind d_uint dret fst].
  unfold sectionLayout, bytesAt.
  rewrite !skipn_skipn. reflexivity.
Qed.

Lemma littleEndian_bytesAt_range (off n : nat) (l : list byte) :
  0 <= littleEndian (bytesAt off n l) < 256 ^ Z.of_nat n.
Proof.
  pose proof (littleEndian_range (bytesAt off n l)) as H.
  assert (Hlen : (List.length (bytesAt off n l) <= n)%nat)
    by (unfold bytesAt; apply firstn_le_length).
  assert (256 ^ Z.of_nat (List.length (bytesAt off n l)) <= 256 ^ Z.of_nat n)
    by (apply Z.pow_le_mono_r; lia).
  lia.
Qed.

(** X1. A header that [ReadELFHeader] returns is well typed: its
    identification has 16 bytes and every other field lies within the width
    its Go type declares; in particular it announces fewer than 65536
    program headers and sections. *)
Theorem ReadELFHeader_fields_in_range (f f' : File) (ehdr : Elf64Ehdr)
    (err : option error) :
  ReadELFHeader f = (Returns (Some ehdr, err), f') ->
  List.length (Ehdr_Ident ehdr) = 16%nat /\
  0 <= Ehdr_Type ehdr < 2 ^ 16 /\
  0 <= Ehdr_Machine ehdr < 2 ^ 16 /\
  0 <= Ehdr_Version ehdr < 2 ^ 32 /\
  0 <= Ehdr_Entry ehdr < 2 ^ 64 /\
  0 <= Ehdr_Phoff ehdr < 2 ^ 64 /\
  0 <= Ehdr_Shoff ehdr < 2 ^ 64 /\
  0 <= Ehdr_Flags ehdr < 2 ^ 32 /\
  0 <= Ehdr_Ehsize ehdr < 2 ^ 16 /\
  0 <= Ehdr_Phentsize ehdr < 2 ^ 16 /\
  0 <= Ehdr_Phnum ehdr < 2 ^ 16 /\
  0 <= Ehdr_Shentsize ehdr < 2 ^ 16 /\
  0 <= Ehdr_Shnum ehdr < 2 ^ 16 /\
  0 <= Ehdr_Shstrndx ehdr < 2 ^ 16.
Proof.
  intros Hread.
  destruct (Nat.leb_spec 64 (List.length (remaining f))) as [Hlen|Hlen].
  - rewrite ReadELFHeader_enough in Hread by assumption.
    injection Hread as <- _ _.
    cbv beta iota delta [headerLayout Ehdr_Ident Ehdr_Type Ehdr_Machine
      Ehdr_Version Ehdr_Entry Ehdr_Phoff Ehdr_Shoff Ehdr_Flags Ehdr_Ehsize
      Ehdr_Phentsize Ehdr_Phnum Ehdr_Shentsize Ehdr_Shnum Ehdr_Shstrndx].
    split; [apply bytesAt_length; lia|].
    repeat split;
      match goal with
      | |- context [littleEndian (bytesAt ?o ?n ?l)] =>
          pose proof (littleEndian_bytesAt_range o n l) as Hr;
          let bound := eval vm_compute in (256 ^ Z.of_nat n) in
          change (256 ^ Z.of_nat n) with bound in Hr;
          lia
      end.
  - rewrite ReadELFHeader_short in Hread by assumption. discriminate Hread.
Qed.

Lemma ReadELFHeader_fields_in_range_witness :
  List.length (Ehdr_Ident (headerLayout twoSectionELF)) = 16%nat /\
  0 <= Ehdr_Type (headerLayout twoSectionELF) < 2 ^ 16 /\
  0 <= Ehdr_Machine (headerLayout twoSectionELF) < 2 ^ 16 /\
  0 <= Ehdr_Version (headerLayout twoSectionELF) < 2 ^ 32 /\
  0 <= Ehdr_Entry (headerLayout twoSectionELF) < 2 ^ 64 /\
  0 <= Ehdr_Phoff (headerLayout twoSectionELF) < 2 ^ 64 /\
  0 <= Ehdr_Shoff (headerLayout twoSectionELF) < 2 ^ 64 /\
  0 <= Ehdr_Flags (headerLayout twoSectionELF) < 2 ^ 32 /\
  0 <= Ehdr_Ehsize (headerLayout twoSectionELF) < 2 ^ 16 /\
  0 <= Ehdr_Phentsize (headerLayout twoSectionELF) < 2 ^ 16 /\
  0 <= Ehdr_Phnum (headerLayout twoSectionELF) < 2 ^ 16 /\
  0 <= Ehdr_Shentsize (headerLayout twoSectionELF) < 2 ^ 16 /\
  0 <= Ehdr_Shnum (headerLayout twoSectionELF) < 2 ^ 16 /\
  0 <= Ehdr_Shstrndx (headerLayout twoSectionELF) < 2 ^ 16.
Proof.
  apply (ReadELFHeader_fields_in_range (openFile twoSectionELF)
           (snd (ReadELFHeader (openFile twoSectionELF)))
           (headerLayout twoSectionELF) None).
  vm_compute. reflexivity.
Defined.

(** ** The program header table *)

Lemma programHeaderAt_inside (bytes : list byte) (start i : nat) :
  (start + 56 * (i + 1) <= List.length bytes)%nat ->
  programHeaderAt bytes start i
  = programLayout (bytesAt (start + 56 * i) 56 bytes).
Proof.
  intros H. unfold programHeaderAt.
  destruct (Nat.leb_spec (start + 56 * (i + 1)) (List.length bytes)); [|lia].
  apply decodePhdr_layout.
Qed.

(** X2. When the source holds the whole program header table (an offset
    below 2^63 and [Phnum] records of 56 bytes within the source), both
    program header functions produce exactly [Phnum] records, the i-th being
    the little-endian fields of the 56 bytes at [Phoff + 56 * i]: the stride
    is always 56, whatever entry size the header declares. *)
Theorem program_headers_complete (ehdr : Elf64Ehdr) (f : File) :
  0 <= Ehdr_Phoff ehdr < 2 ^ 63 ->
  0 <= Ehdr_Phnum ehdr ->
  Ehdr_Phoff ehdr + 56 * Ehdr_Phnum ehdr
    <= Z.of_nat (List.length (content f)) ->
  exists f',
    JSONOutputProgramHeaders ehdr f
    = (Returns
         (map (fun i =>
                 programLayout
                   (bytesAt (Z.to_nat (Ehdr_Phoff ehdr) + 56 * i) 56 (content f)))
              (seq 0 (Z.to_nat (Ehdr_Phnum ehdr)))), f') /\
    PrintProgramHeaders ehdr f
    = (Returns
         (map (fun i =>
                 programLayout
                   (bytesAt (Z.to_nat (Ehdr_Phoff ehdr) + 56 * i) 56 (content f)))
              (seq 0 (Z.to_nat (Ehdr_Phnum ehdr)))), f').
Proof.
  intros Hoff Hnum Hlen.
  destruct (program_headers_run ehdr f) as (f' & Hjson & Hprint).
  rewrite seekTarget_in_range in Hjson, Hprint by assumption.
  assert (Hmap :
    map (programHeaderAt (content f) (Z.to_nat (Ehdr_Phoff ehdr)))
        (seq 0 (Z.to_nat (Ehdr_Phnum ehdr)))
    = map (fun i =>
             programLayout
               (bytesAt (Z.to_nat (Ehdr_Phoff ehdr) + 56 * i) 56 (content f)))
          (seq 0 (Z.to_nat (Ehdr_Phnum ehdr)))).
  { apply map_ext_in. intros i Hi. apply in_seq in Hi.
    apply programHeaderAt_inside. lia. }
  rewrite Hmap in Hjson, Hprint.
  exists f'. split; assumption.
Qed.

(** X3. An offset of 2^63 or more is never sought ([int64(ehdr.Phoff)] is
    negative and [Seek] refuses it, unnoticed): the program headers are then
    read from wherever the source stands, which in a run of [main] is just
    behind the file header. *)
Theorem program_headers_refused_seek (ehdr : Elf64Ehdr) (f : File) :
  2 ^ 63 <= Ehdr_Phoff ehdr < 2 ^ 64 ->
  exists f',
    JSONOutputProgramHeaders ehdr f
    = (Returns
         (map (programHeaderAt (content f) (N.to_nat (pos f)))
              (seq 0 (Z.to_nat (Ehdr_Phnum ehdr)))), f') /\
    PrintProgramHeaders ehdr f
    = (Returns
         (map (programHeaderAt (content f) (N.to_nat (pos f)))
              (seq 0 (Z.to_nat (Ehdr_Phnum ehdr)))), f').
Proof.
  intros Hoff.
  destruct (program_headers_run ehdr f) as (f' & Hjson & Hprint).
  assert (Htarget : seekTarget f (Ehdr_Phoff ehdr) = pos f).
  { unfold seekTarget, int64.
    destruct (Z.ltb_spec (Ehdr_Phoff ehdr) (2 ^ 63)); [lia|].
    destruct (Z.ltb_spec (Ehdr_Phoff ehdr - 2 ^ 64) 0); [reflexivity | lia]. }
  rewrite Htarget in Hjson, Hprint.
  exists f'. split; assumption.
Qed.


(** The requests the loop of the program header functions makes: one read
    of 56 bytes for every record, also after a read has failed. *)
Lemma programHeader_loop_trace (n : nat) :
  forall (i : Z) (acc : list Elf64Phdr) (f : File),
    trace (snd (forRange n i
                  (fun _ phdrs =>
                     let phdr := zeroPhdr in
                     ' (phdr, _) <- binary_Read phdr ;;
                     ret (phdrs ++ [phdr]))%go
                  acc f))
    = trace f ++ repeat (OpRead 56) n.
Proof.
  induction n as [|n IH]; intros i acc f.
  - cbn [forRange repeat]. unfold ret. cbn [snd]. rewrite app_nil_r. reflexivity.
  - destruct (binary_Read_fixed zeroPhdr f) as (err & Hread);
      [cbn; discriminate|].
    change (dataSize zeroPhdr) with 56%nat in Hread.
    cbn [forRange]. cbv zeta.
    specialize (IH (i + 1)
                  (acc ++ [if (56 <=? List.length (remaining f))%nat
                           then decode (firstn 56 (remaining f))
                           else zeroPhdr])
                  (afterRead 56 f)).
    cbv zeta in IH.
    cbv beta iota delta [bind ret] in Hread, IH |- *.
    rewrite Hread.
    rewrite IH. cbn [afterRead trace repeat].
    rewrite <- app_assoc. reflexivity.
Qed.

(** X5. Decoding the program headers asks the source for one seek and then
    for exactly [Phnum] reads of 56 bytes each, whether or not the source
    has that much: it does not stop at the first read that fails. *)
Theorem program_headers_requests (ehdr : Elf64Ehdr) (f : File) :
  trace (snd (JSONOutputProgramHeaders ehdr f))
  = trace f ++ OpSeek (int64 (Ehdr_Phoff ehdr))
            :: repeat (OpRead 56) (Z.to_nat (Ehdr_Phnum ehdr)) /\
  trace (snd (PrintProgramHeaders ehdr f))
  = trace f ++ OpSeek (int64 (Ehdr_Phoff ehdr))
            :: repeat (OpRead 56) (Z.to_nat (Ehdr_Phnum ehdr)).
Proof.
  destruct (Seek_int64 (Ehdr_Phoff ehdr) f) as (r & Hseek).
  pose proof (programHeader_loop_trace (Z.to_nat (Ehdr_Phnum ehdr)) 0 []
                (afterSeek (Ehdr_Phoff ehdr) f)) as Htrace.
  cbn [afterSeek trace] in Htrace. rewrite <- app_assoc in Htrace.
  split.
  - unfold JSONOutputProgramHeaders. run_bind Hseek.
    unfold bind at 1.
    match goal with
    | |- context [forRange ?n ?i ?b ?a ?g] =>
        destruct (forRange n i b a g) as [[phdrs|p] f'] eqn:Hloop
    end; cbn [snd] in Htrace |- *; exact Htrace.
  - unfold PrintProgramHeaders. run_bind Hseek. exact Htrace.
Qed.

Lemma program_headers_complete_witness :
  fst (main_jl oneProgramELF) = Returns (Some [loadSegment]) /\
  exists f',
    JSONOutputProgramHeaders (headerLayout oneProgramELF) (openFile oneProgramELF)
    = (Returns
         (map (fun i =>
                 programLayout
                   (bytesAt (Z.to_nat (Ehdr_Phoff (headerLayout oneProgramELF))
                             + 56 * i) 56 (content (openFile oneProgramELF))))
              (seq 0 (Z.to_nat (Ehdr_Phnum (headerLayout oneProgramELF))))), f') /\
    PrintProgramHeaders (headerLayout oneProgramELF) (openFile oneProgramELF)
    = (Returns
         (map (fun i =>
                 programLayout
                   (bytesAt (Z.to_nat (Ehdr_Phoff (headerLayout oneProgramELF))
                             + 56 * i) 56 (content (openFile oneProgramELF))))
              (seq 0 (Z.to_nat (Ehdr_Phnum (headerLayout oneProgramELF))))), f').
Proof.
  split; [reflexivity|].
  apply (program_headers_complete (headerLayout oneProgramELF)
           (openFile oneProgramELF)); cbn; lia.
Defined.

(** In a run of [main] on [farProgramELF] the record behind the header is
    listed although the declared offset is 2^63 + 64. *)
Lemma program_headers_refused_seek_witness :
  fst (main_jl farProgramELF) = Returns (Some [loadSegment]) /\
  exists f',
    JSONOutputProgramHeaders (headerLayout farProgramELF)
      (snd (ReadELFHeader (openFile farProgramELF)))
    = (Returns
         (map (programHeaderAt farProgramELF 64)
              (seq 0 (Z.to_nat (Ehdr_Phnum (headerLayout farProgramELF))))), f') /\
    PrintProgramHeaders (headerLayout farProgramELF)
      (snd (ReadELFHeader (openFile farProgramELF)))
    = (Returns
         (map (programHeaderAt farProgramELF 64)
              (seq 0 (Z.to_nat (Ehdr_Phnum (headerLayout farProgramELF))))), f').
Proof.
  split; [reflexivity|].
  apply (program_headers_refused_seek (headerLayout farProgramELF)
           (snd (ReadELFHeader (openFile farProgramELF)))); cbn; lia.
Defined.


(** ** Names that share their tails *)

Lemma untilNUL_skipn (l : list byte) :
  forall k : nat,
    (k <= List.length (untilNUL l))%nat ->
    untilNUL (skipn k l) = skipn k (untilNUL l).
Proof.
  induction l as [|b l IH]; intros k Hk.
  - cbn [untilNUL]. rewrite skipn_nil. reflexivity.
  - cbn [untilNUL] in Hk |- *.
    destruct (Byte.eqb b x00) eqn:Hb.
    + cbn [List.length] in Hk. replace k with O by lia.
      cbn [skipn untilNUL]. rewrite Hb. reflexivity.
    + destruct k as [|k]; cbn [skipn untilNUL List.length] in Hk |- *.
      * rewrite Hb. reflexivity.
      * apply IH. lia.
Qed.

(** [getString] returns exactly for the indices within the table. *)
Lemma getString_returns_iff (data : list byte) (idx : Z) :
  0 <= idx ->
  (exists name, getString data idx = Returns name)
  <-> idx <= Z.of_nat (List.length data).
Proof.
  intros Hidx. split.
  - intros (name & Hname).
    destruct (Z.le_gt_cases idx (Z.of_nat (List.length data))) as [H|H];
      [exact H|].
    rewrite getString_beyond in Hname by lia. discriminate Hname.
  - intros Hle. eexists. apply getString_within. lia.
Qed.

(** X6. Names may share their tails in a string table: if the name at an
    index has been resolved, then the index [k] bytes further, for any [k]
    up to the length of that name, resolves to the name without its first
    [k] bytes (for a table shorter than 2^32 bytes). *)
Theorem getString_shares_tails (data : list byte) (idx k : Z) (name : string) :
  Z.of_nat (List.length data) < 2 ^ 32 ->
  0 <= idx ->
  getString data idx = Returns name ->
  0 <= k <= Z.of_nat (List.length (list_byte_of_string name)) ->
  getString data (idx + k)
  = Returns (string_of_list_byte
               (skipn (Z.to_nat k) (list_byte_of_string name))).
Proof.
  intros Hlen Hidx Hname Hk.
  assert (Hin : idx <= Z.of_nat (List.length data))
    by (apply getString_returns_iff; eauto).
  rewrite getString_whole in Hname by lia.
  injection Hname as <-.
  rewrite list_byte_of_string_of_list_byte in Hk |- *.
  pose proof (untilNUL_length (skipn (Z.to_nat idx) data)) as Hrun.
  rewrite length_skipn in Hrun.
  rewrite getString_whole by lia.
  replace (Z.to_nat (idx + k)) with (Z.to_nat k + Z.to_nat idx)%nat by lia.
  rewrite <- skipn_skipn, untilNUL_skipn by lia.
  reflexivity.
Qed.

Lemma getString_shares_tails_witness :
  getString [x00; x2e; x73; x68; x73; x74; x72; x74; x61; x62; x00] (1 + 3)
  = Returns (string_of_list_byte
               (skipn (Z.to_nat 3) (list_byte_of_string ".shstrtab"))).
Proof.
  apply (getString_shares_tails
           [x00; x2e; x73; x68; x73; x74; x72; x74; x61; x62; x00] 1 3
           ".shstrtab");
    [cbn; lia | lia | reflexivity | cbn; lia].
Defined.

(** ** The section header table and its names *)

Lemma sectionHeaderAt_inside (bytes : list byte) (start i : nat) :
  (start + 64 * (i + 1) <= List.length bytes)%nat ->
  sectionHeaderAt bytes start i
  = sectionLayout (bytesAt (start + 64 * i) 64 bytes).
Proof.
  intros H. unfold sectionHeaderAt.
  destruct (Nat.leb_spec (start + 64 * (i + 1)) (List.length bytes)); [|lia].
  apply decodeShdr_layout.
Qed.


(** X7. When the source holds the whole section header table (an offset
    below 2^63 and [Shnum] records of 64 bytes within the source), the raw
    headers that [MakeSectionHeaderWithName] loads are exactly [Shnum]
    records, the i-th being the little-endian fields of the 64 bytes at
    [Shoff + 64 * i], whatever entry size the header declares. *)
Theorem section_headers_complete (ehdr : Elf64Ehdr) (f : File) :
  0 <= Ehdr_Shoff ehdr < 2 ^ 63 ->
  0 <= Ehdr_Shnum ehdr ->
  Ehdr_Shoff ehdr + 64 * Ehdr_Shnum ehdr
    <= Z.of_nat (List.length (content f)) ->
  exists f',
    loadSectionHeaders ehdr f
    = (Returns
         (map (fun i =>
                 sectionLayout
                   (bytesAt (Z.to_nat (Ehdr_Shoff ehdr) + 64 * i) 64 (content f)))
              (seq 0 (Z.to_nat (Ehdr_Shnum ehdr)))), f').
Proof.
  intros Hoff Hnum Hlen.
  destruct (loadSectionHeaders_run ehdr f) as (f' & Hload).
  rewrite seekTarget_in_range in Hload by assumption.
  exists f'. rewrite Hload. do 2 f_equal.
  apply map_ext_in. intros i Hi. apply in_seq in Hi.
  apply sectionHeaderAt_inside. lia.
Qed.

Lemma section_headers_complete_witness :
  exists f',
    loadSectionHeaders (headerLayout twoSectionELF) (openFile twoSectionELF)
    = (Returns
         (map (fun i =>
                 sectionLayout
                   (bytesAt (Z.to_nat (Ehdr_Shoff (headerLayout twoSectionELF))
                             + 64 * i) 64 (content (openFile twoSectionELF))))
              (seq 0 (Z.to_nat (Ehdr_Shnum (headerLayout twoSectionELF))))), f').
Proof.
  apply (section_headers_complete (headerLayout twoSectionELF)
           (openFile twoSectionELF)); cbn; lia.
Defined.

Lemma loadSectionHeaders_content (ehdr : Elf64Ehdr) (f : File) :
  exists f1,
    loadSectionHeaders ehdr f
    = (Returns (rawSectionHeaders (content f)
                  (seekTarget f (Ehdr_Shoff ehdr)) ehdr), f1) /\
    content f1 = content f.
Proof.
  destruct (Seek_int64 (Ehdr_Shoff ehdr) f) as (r & Hseek).
  destruct (readSectionHeaders_run (Z.to_nat (Ehdr_Shnum ehdr)) 0
              (repeat zeroShdr (Z.to_nat (Ehdr_Shnum ehdr)))
              (afterSeek (Ehdr_Shoff ehdr) f))
    as (f1 & Hrun & Hcontent).
  { lia. }
  { rewrite repeat_length. reflexivity. }
  { intros j Hj. rewrite repeat_length in Hj. apply nth_error_repeat. lia. }
  exists f1. split; [|exact Hcontent].
  unfold loadSectionHeaders. run_bind Hseek. exact Hrun.
Qed.




Lemma dumpStringTable_too_large (offset size : Z) (f : File) :
  maxAlloc < size ->
  dumpStringTable offset size f
  = (Panics MakesliceLenOutOfRange, afterSeek offset f).
Proof.
  intros Hsize. rewrite dumpStringTable_run.
  destruct (Z.leb_spec size maxAlloc); [lia | reflexivity].
Qed.


(** [MakeSectionHeaderWithName] once its first loop has run. *)
Lemma MakeSectionHeaderWithName_after_load (ehdr : Elf64Ehdr) (f : File) :
  exists f1,
    content f1 = content f /\
    MakeSectionHeaderWithName ehdr f
    = (let shdrs := rawSectionHeaders (content f)
                      (seekTarget f (Ehdr_Shoff ehdr)) ehdr in
       let shdrwns := repeat zeroShdrWithName (Z.to_nat (Ehdr_Shnum ehdr)) in
       strOffset <- lift (index shdrs (Ehdr_Shstrndx ehdr)) ;;
       strSize <- lift (index shdrs (Ehdr_Shstrndx ehdr)) ;;
       stringTable <- dumpStringTable (Shdr_Offset strOffset)
                        (Shdr_Size strSize) ;;
       shdrwns <- bindNames (Z.to_nat (Ehdr_Shnum ehdr)) stringTable shdrs
                    shdrwns ;;
       ret shdrwns)%go f1.
Proof.
  destruct (loadSectionHeaders_content ehdr f) as (f1 & Hload & Hcontent).
  exists f1. split; [exact Hcontent|].
  unfold MakeSectionHeaderWithName. run_bind Hload. reflexivity.
Qed.

(** What a run of [MakeSectionHeaderWithName] that returns went through:
    the section the string-table index selects, the table loaded for it and
    the names resolved in it. *)
Lemma MakeSectionHeaderWithName_inv (ehdr : Elf64Ehdr) (f f' : File)
    (shdrwns : list Elf64ShdrWithName) :
  MakeSectionHeaderWithName ehdr f = (Returns shdrwns, f') ->
  let shdrs := rawSectionHeaders (content f)
                 (seekTarget f (Ehdr_Shoff ehdr)) ehdr in
  exists strsec stringTable f1 f2,
    content f1 = content f /\
    0 <= Ehdr_Shstrndx ehdr /\
    nth_error shdrs (Z.to_nat (Ehdr_Shstrndx ehdr)) = Some strsec /\
    dumpStringTable (Shdr_Offset strsec) (Shdr_Size strsec) f1
    = (Returns stringTable, f2) /\
    List.length shdrwns = Z.to_nat (Ehdr_Shnum ehdr) /\
    forall j : nat,
      (j < Z.to_nat (Ehdr_Shnum ehdr))%nat ->
      exists sw sh,
        nth_error shdrwns j = Some sw /\
        nth_error shdrs j = Some sh /\
        getString stringTable (Shdr_Name sh) = Returns (Shwn_Name sw).
Proof.
  intros Hrun shdrs.
  destruct (MakeSectionHeaderWithName_after_load ehdr f)
    as (f1 & Hcontent & Heq).
  rewrite Heq in Hrun. clear Heq. cbv zeta in Hrun. fold shdrs in Hrun.
  invert_lift Hrun as strOffset HstrOffset.
  invert_lift Hrun as strSize HstrSize.
  rewrite HstrOffset in HstrSize. injection HstrSize as <-.
  invert_bind Hrun as stringTable Hdump.
  invert_bind Hrun as res Hbind.
  unfold ret in Hrun. injection Hrun as -> ->.
  apply index_returns_inv in HstrOffset as (Hrange & Hnth).
  unfold bindNames in Hbind.
  apply bindNames_loop in Hbind as (Hlen & _ & _ & Hin); [|lia].
  rewrite repeat_length in Hlen.
  exists strOffset, stringTable, f1.
  eexists. split; [exact Hcontent|]. split; [lia|].
  split; [exact Hnth|]. split; [exact Hdump|]. split; [exact Hlen|].
  intros j Hj.
  destruct (Hin j ltac:(cbn; lia)) as (sw & sh & Hsw & Hsh & Hname & _).
  exists sw, sh. auto.
Qed.










(** ** Listing the sections: [PrintSectionHeaders] *)

Lemma PrintSectionHeaders_loop (shdrwns : list Elf64ShdrWithName) (n : nat) :
  forall (k : nat) (acc : list (Z * Elf64ShdrWithName)) (f : File),
    (k + n)%nat = List.length shdrwns ->
    forRange n (Z.of_nat k)
      (fun i printed =>
         entry <- lift (index shdrwns i) ;;
         ret (printed ++ [(i, entry)]))%go
      acc f
    = (Returns (acc ++ combine (map Z.of_nat (seq k n)) (skipn k shdrwns)), f).
Proof.
  induction n as [|n IH]; intros k acc f Hlen.
  - cbn [forRange seq map combine]. rewrite app_nil_r. reflexivity.
  - destruct (index_in_range shdrwns (Z.of_nat k) ltac:(lia))
      as (entry & Hidx & Hnth).
    rewrite Nat2Z.id in Hnth.
    specialize (IH (S k) (acc ++ [(Z.of_nat k, entry)]) f ltac:(lia)).
    replace (Z.of_nat (S k)) with (Z.of_nat k + 1) in IH by lia.
    cbn [forRange].
    cbv beta iota zeta delta [bind lift ret] in IH |- *.
    rewrite Hidx, IH.
    rewrite (skipn_nth_error _ _ _ Hnth).
    cbn [seq map combine]. rewrite <- app_assoc. reflexivity.
Qed.

Lemma PrintSectionHeaders_run (ehdr : Elf64Ehdr) (f : File) :
  PrintSectionHeaders ehdr f
  = match MakeSectionHeaderWithName ehdr f with
    | (Returns shdrwns, f') =>
        (Returns (combine (map Z.of_nat (seq 0 (List.length shdrwns))) shdrwns),
         f')
    | (Panics p, f') => (Panics p, f')
    end.
Proof.
  unfold PrintSectionHeaders.
  destruct (MakeSectionHeaderWithName ehdr f) as [[shdrwns|p] f'] eqn:Hrun.
  - run_bind Hrun.
    apply MakeSectionHeaderWithName_inv in Hrun
      as (_ & _ & _ & _ & _ & _ & _ & _ & Hlen & _).
    rewrite <- Hlen.
    change 0 with (Z.of_nat 0).
    rewrite PrintSectionHeaders_loop by reflexivity.
    reflexivity.
  - apply bind_panics. exact Hrun.
Qed.

(** ** The command line: [main] *)

Lemma remaining_openFile (bytes : list byte) :
  remaining (openFile bytes) = bytes.
Proof. reflexivity. Qed.

(** [main] with two arguments. *)
Lemma main_two_arguments (open : string -> option (list byte))
    (program option fileName : string) :
  main open [program; option; fileName]
  = match open fileName with
    | None => Exit1 (ErrorOpeningFile fileName)
    | Some bytes =>
        match ReadELFHeader (openFile bytes) with
        | (Returns (_, Some e), _) => Exit1 (ErrorReadingHeader e)
        | (Returns (ehdr, None), file) => dispatch option ehdr file
        | (Panics p, _) => Crash p
        end
    end.
Proof. reflexivity. Qed.

(** Unless it is given exactly two arguments, [main] writes the usage
    message, naming the program, and exits with status 1, whatever files
    exist. *)
Lemma main_wrong_argument_count (open : string -> option (list byte))
    (program : string) (arguments : list string) :
  List.length arguments <> 2%nat ->
  main open (program :: arguments) = Exit1 (Usage program).
Proof.
  intros Hlen. unfold main. cbn [List.length].
  destruct (Nat.eqb_spec (S (List.length arguments)) 3) as [H|_]; [lia|].
  reflexivity.
Qed.

Lemma main_wrong_argument_count_witness :
  main (fun _ => Some twoSectionELF) ["readelf"; "-h"]%string
  = Exit1 (Usage "readelf").
Proof.
  apply (main_wrong_argument_count (fun _ => Some twoSectionELF)
           "readelf" ["-h"]%string).
  cbn. lia.
Defined.

(** X12. The header is read before the option is looked at: on a file of
    fewer than 64 bytes [main] exits with status 1 and the error of the
    header read ([io.EOF] for an empty file, [io.ErrUnexpectedEOF]
    otherwise) for every option, also one it does not know. *)
Theorem main_short_file (open : string -> option (list byte))
    (program option fileName : string) (bytes : list byte) :
  open fileName = Some bytes ->
  (List.length bytes < 64)%nat ->
  main open [program; option; fileName]
  = Exit1 (ErrorReadingHeader
             (match bytes with
              | [] => EOF
              | _ :: _ => ErrUnexpectedEOF
              end)).
Proof.
  intros Hopen Hlen. rewrite main_two_arguments, Hopen.
  rewrite ReadELFHeader_short by (rewrite remaining_openFile; exact Hlen).
  rewrite remaining_openFile. reflexivity.
Qed.

Lemma main_short_file_witness :
  main (fun _ => Some sampleTable) ["readelf"; "--help"; "a.out"]%string
  = Exit1 (ErrorReadingHeader ErrUnexpectedEOF).
Proof.
  apply (main_short_file (fun _ => Some sampleTable)
           "readelf" "--help" "a.out" sampleTable).
  - reflexivity.
  - cbn. lia.
Defined.

(** X13. Every option without a case in the [switch] is refused with
    status 1 once the header has been read; this includes [-j], which the
    usage message advertises. *)
Theorem main_rejects_unhandled_option (open : string -> option (list byte))
    (program option fileName : string) (bytes : list byte) :
  open fileName = Some bytes ->
  (64 <= List.length bytes)%nat ->
  ~ In option handledOptions ->
  main open [program; option; fileName] = Exit1 (InvalidOption option).
Proof.
  intros Hopen Hlen Hnot. rewrite main_two_arguments, Hopen.
  rewrite ReadELFHeader_enough by (rewrite remaining_openFile; exact Hlen).
  unfold dispatch.
  unfold handledOptions in Hnot. cbn [In] in Hnot.
  repeat match goal with
         | |- context [String.eqb option ?s] =>
             destruct (String.eqb_spec option s) as [Heq|_];
             [exfalso; apply Hnot; rewrite Heq; tauto|]
         end.
  reflexivity.
Qed.

Lemma main_rejects_unhandled_option_witness :
  In "-j"%string advertisedOptions /\
  main (fun _ => Some twoSectionELF) ["readelf"; "-j"; "a.out"]%string
  = Exit1 (InvalidOption "-j").
Proof.
  split; [cbn; tauto|].
  apply (main_rejects_unhandled_option (fun _ => Some twoSectionELF)
           "readelf" "-j" "a.out" twoSectionELF).
  - reflexivity.
  - cbn. lia.
  - cbn. intros [H | [H | [H | [H | [H | [H | []]]]]]]; discriminate H.
Defined.

Lemma PrintELFHeader_returns (ehdr : Elf64Ehdr) :
  List.length (Ehdr_Ident ehdr) = 16%nat ->
  exists lines, PrintELFHeader ehdr = Returns (Ehdr_Ident ehdr, lines).
Proof.
  intros Hlen. unfold PrintELFHeader. cbv zeta.
  destruct (index_in_range (Ehdr_Ident ehdr) 4 ltac:(lia)) as (b4 & -> & _).
  destruct (index_in_range (Ehdr_Ident ehdr) 5 ltac:(lia)) as (b5 & -> & _).
  destruct (index_in_range (Ehdr_Ident ehdr) 6 ltac:(lia)) as (b6 & -> & _).
  destruct (index_in_range (Ehdr_Ident ehdr) 7 ltac:(lia)) as (b7 & -> & _).
  destruct (index_in_range (Ehdr_Ident ehdr) 8 ltac:(lia)) as (b8 & -> & _).
  cbn [obind]. eexists. reflexivity.
Qed.

(** X14. The header and program header views cannot crash: for the options
    [-h], [-l], [-jh] and [-jl], whatever the file holds and whether or not
    it can be opened, [main] ends by returning or by [os.Exit(1)], never in
    a panic. *)
Theorem main_header_and_program_views_never_crash
    (open : string -> option (list byte)) (program option fileName : string) :
  In option ["-h"; "-l"; "-jh"; "-jl"]%string ->
  (exists out, main open [program; option; fileName] = Exit0 out) \/
  (exists msg, main open [program; option; fileName] = Exit1 msg).
Proof.
  intros Hin. rewrite main_two_arguments.
  destruct (open fileName) as [bytes|]; [|right; eexists; reflexivity].
  destruct (Nat.leb_spec 64 (List.length bytes)) as [Hlen|Hlen].
  - rewrite ReadELFHeader_enough by (rewrite remaining_openFile; exact Hlen).
    rewrite remaining_openFile. left.
    destruct (program_headers_run (headerLayout bytes)
                (mkFile (content (openFile bytes)) (pos (openFile bytes) + 64)
                   (trace (openFile bytes) ++ [OpRead 64])))
      as (f' & Hjson & Hprint).
    destruct (PrintELFHeader_returns (headerLayout bytes))
      as (lines & Hheader);
      [apply bytesAt_length; lia|].
    cbn [In] in Hin.
    destruct Hin as [<- | [<- | [<- | [<- | []]]]];
      unfold dispatch; cbn [String.eqb Ascii.eqb Bool.eqb];
      unfold withHeader, finish;
      rewrite ?Hjson, ?Hprint, ?Hheader; cbn [fst]; eexists; reflexivity.
  - rewrite ReadELFHeader_short by (rewrite remaining_openFile; exact Hlen).
    right. eexists. reflexivity.
Qed.

Lemma main_header_and_program_views_never_crash_witness :
  (exists out,
      main (fun _ => Some truncatedProgramELF) ["readelf"; "-l"; "a.out"]%string
      = Exit0 out) \/
  (exists msg,
      main (fun _ => Some truncatedProgramELF) ["readelf"; "-l"; "a.out"]%string
      = Exit1 msg).
Proof.
  apply (main_header_and_program_views_never_crash
           (fun _ => Some truncatedProgramELF) "readelf" "-l" "a.out").
  cbn. tauto.
Defined.

(** X11. [PrintSectionHeaders] never fails on its own: it panics exactly
    when [MakeSectionHeaderWithName] does, with the same panic, and
    otherwise prints every resolved header once, in table order, each under
    its index 0, 1, 2, ... *)
Theorem PrintSectionHeaders_prints_all (ehdr : Elf64Ehdr) (f : File) :
  PrintSectionHeaders ehdr f
  = match MakeSectionHeaderWithName ehdr f with
    | (Returns shdrwns, f') =>
        (Returns (combine (map Z.of_nat (seq 0 (List.length shdrwns))) shdrwns),
         f')
    | (Panics p, f') => (Panics p, f')
    end.
Proof.
  apply PrintSectionHeaders_run.
Qed.




(** X16. A section whose declared size exceeds what the run time can
    allocate, selected as the string table, makes
    [MakeSectionHeaderWithName] panic in [make] ("makeslice: len out of
    range"), before anything of the table is read. *)
Theorem MakeSectionHeaderWithName_oversized_string_table
    (ehdr : Elf64Ehdr) (f : File) (strsec : Elf64Shdr) :
  0 <= Ehdr_Shstrndx ehdr ->
  nth_error (rawSectionHeaders (content f) (seekTarget f (Ehdr_Shoff ehdr)) ehdr)
    (Z.to_nat (Ehdr_Shstrndx ehdr)) = Some strsec ->
  maxAlloc < Shdr_Size strsec ->
  exists f1,
    fst (MakeSectionHeaderWithName ehdr f) = Panics MakesliceLenOutOfRange /\
    snd (MakeSectionHeaderWithName ehdr f) = afterSeek (Shdr_Offset strsec) f1.
Proof.
  intros Hndx Hnth Hsize.
  destruct (MakeSectionHeaderWithName_after_load ehdr f) as (f1 & _ & Heq).
  rewrite Heq. clear Heq. cbv zeta.
  set (shdrs := rawSectionHeaders (content f)
                  (seekTarget f (Ehdr_Shoff ehdr)) ehdr) in *.
  assert (Hrange : 0 <= Ehdr_Shstrndx ehdr < Z.of_nat (List.length shdrs)).
  { assert (Z.to_nat (Ehdr_Shstrndx ehdr) < List.length shdrs)%nat
      by (apply nth_error_Some; rewrite Hnth; discriminate).
    lia. }
  destruct (index_in_range shdrs (Ehdr_Shstrndx ehdr) Hrange)
    as (strsec' & Hidx & Hnth').
  rewrite Hnth in Hnth'. injection Hnth' as <-.
  exists f1. rewrite Hidx.
  cbv beta iota delta [bind lift].
  rewrite (dumpStringTable_too_large (Shdr_Offset strsec) (Shdr_Size strsec)
             f1 Hsize).
  split; reflexivity.
Qed.

Lemma MakeSectionHeaderWithName_oversized_string_table_witness :
  exists f1,
    fst (MakeSectionHeaderWithName (headerLayout oversizedTableELF)
           (openFile oversizedTableELF)) = Panics MakesliceLenOutOfRange /\
    snd (MakeSectionHeaderWithName (headerLayout oversizedTableELF)
           (openFile oversizedTableELF))
    = afterSeek (Shdr_Offset (mkShdr 1 3 0 0 64 (11 + 2 ^ 48) 0 0 1 0)) f1.
Proof.
  apply (MakeSectionHeaderWithName_oversized_string_table
           (headerLayout oversizedTableELF) (openFile oversizedTableELF)
           (mkShdr 1 3 0 0 64 (11 + 2 ^ 48) 0 0 1 0)).
  - cbn. lia.
  - vm_compute. reflexivity.
  - unfold maxAlloc. cbn. lia.
Defined.

(** X17. Whatever the table, also one of 2^32 bytes or more, a name that
    [getString] returns holds no NUL and is a piece of the table that
    starts at the index. *)
Theorem getString_returns_piece_of_table (data : list byte) (idx : Z)
    (name : string) :
  0 <= idx ->
  getString data idx = Returns name ->
  ~ In x00 (list_byte_of_string name) /\
  exists rest,
    skipn (Z.to_nat idx) data = list_byte_of_string name ++ rest.
Proof.
  intros Hidx Hname.
  assert (Hin : idx <= Z.of_nat (List.length data))
    by (apply getString_returns_iff; eauto).
  rewrite getString_within in Hname by lia.
  injection Hname as <-.
  rewrite list_byte_of_string_of_list_byte.
  remember (Z.to_nat (uint32 (Z.of_nat (List.length data)) - idx)) as m.
  set (rest_of_table := skipn (Z.to_nat idx) data).
  destruct (untilNUL_split (firstn m rest_of_table))
    as (rest & Hsplit & Hnot & _).
  split; [exact Hnot|].
  exists (rest ++ skipn m rest_of_table).
  rewrite app_assoc, <- Hsplit. symmetry. apply firstn_skipn.
Qed.

Lemma getString_returns_piece_of_table_witness :
  ~ In x00 (list_byte_of_string "cd") /\
  exists rest,
    skipn (Z.to_nat 3) sampleTable = list_byte_of_string "cd" ++ rest.
Proof.
  apply (getString_returns_piece_of_table sampleTable 3 "cd");
    [lia | reflexivity].
Defined.
